(** * spyral/_camera.py: cameras and the dirty-rectangle compositor

    A shallow embedding of [spyral/_camera.py].  Cameras are immutable
    geometry records; the mutable render state that the root camera owns
    (and that every child reaches through [_rs]) is one store, threaded
    through a state-and-exception monad.  Drawing on the display surface
    is recorded as a trace of screen operations. *)

From Stdlib Require Import ZArith QArith Qround Lia List Bool Sorted.
From stdpp Require Import base gmap list strings.
Import ListNotations.

Local Open Scope Z_scope.

(** ** Sizes and rectangles (pygame.Rect, integer coordinates) *)

Definition Size : Type := Z * Z.

Definition size_eqb (a b : Size) : bool :=
  (a.1 =? b.1) && (a.2 =? b.2).

Record Rect := mkRect { rleft : Z; rtop : Z; rwidth : Z; rheight : Z }.

Definition rright (r : Rect) : Z := rleft r + rwidth r.
Definition rbottom (r : Rect) : Z := rtop r + rheight r.

(** [A.contains(B)] *)
Definition contains (A B : Rect) : bool :=
  (rleft A <=? rleft B) && (rtop A <=? rtop B) &&
  (rright B <=? rright A) && (rbottom B <=? rbottom A) &&
  (rleft B <? rright A) && (rtop B <? rbottom A).

(** One axis of the overlap test: the start of one interval lies in the
    other. *)
Definition axis_overlap (a alen b blen : Z) : bool :=
  ((b <=? a) && (a <? b + blen)) || ((a <=? b) && (b <? a + alen)).

(** [A.colliderect(B)] *)
Definition colliderect (A B : Rect) : bool :=
  axis_overlap (rleft A) (rwidth A) (rleft B) (rwidth B) &&
  axis_overlap (rtop A) (rheight A) (rtop B) (rheight B).

(** One axis of [clip]: start and length of the overlap, if any. *)
Definition clip_axis (a alen b blen : Z) : option (Z * Z) :=
  let start :=
    if (b <=? a) && (a <? b + blen) then Some a
    else if (a <=? b) && (b <? a + alen) then Some b
    else None in
  match start with
  | None => None
  | Some x =>
      if (b <? a + alen) && (a + alen <=? b + blen) then Some (x, a + alen - x)
      else if (a <? b + blen) && (b + blen <=? a + alen) then Some (x, b + blen - x)
      else None
  end.

(** [A.clip(B)]: the part of [A] inside [B]; a zero-sized rectangle at
    [A]'s corner when they do not overlap. *)
Definition clip (A B : Rect) : Rect :=
  match clip_axis (rleft A) (rwidth A) (rleft B) (rwidth B),
        clip_axis (rtop A) (rheight A) (rtop B) (rheight B) with
  | Some (x, w), Some (y, h) => mkRect x y w h
  | _, _ => mkRect (rleft A) (rtop A) 0 0
  end.

(** [A.move(dx, dy)] *)
Definition move (A : Rect) (d : Z * Z) : Rect :=
  mkRect (rleft A + d.1) (rtop A + d.2) (rwidth A) (rheight A).

(** [A.union(B)] *)
Definition union_rect (A B : Rect) : Rect :=
  let x := Z.min (rleft A) (rleft B) in
  let y := Z.min (rtop A) (rtop B) in
  mkRect x y (Z.max (rright A) (rright B) - x)
             (Z.max (rbottom A) (rbottom B) - y).

(** ** Surfaces

    Pixel buffers are kept symbolic: what matters to the compositor is
    where a surface came from and how large it is. *)

Inductive Surface :=
| Image (ident : nat) (size : Size)
| Filled (size : Size) (color : Z * Z * Z)
| Smoothscale (s : Surface) (new_size : Size)
| Subsurface (s : Surface) (r : Rect).

Definition get_size (s : Surface) : Size :=
  match s with
  | Image _ sz => sz
  | Filled sz _ => sz
  | Smoothscale _ sz => sz
  | Subsurface _ r => (rwidth r, rheight r)
  end.

Definition get_rect (s : Surface) : Rect :=
  mkRect 0 0 (get_size s).1 (get_size s).2.

(** A surface whose width and height are not negative. *)
Definition surface_ok (s : Surface) : Prop :=
  0 <= (get_size s).1 /\ 0 <= (get_size s).2.

(** ** Python numbers

    Scale factors are Python floats.  The development is parametric in
    the arithmetic: it only uses the operations below and the single law
    that a non-zero integer divided by itself is [1.0]. *)

Class Scalar (F : Type) := {
  fone : F;
  of_int : Z -> F;
  fmul : F -> F -> F;
  truediv : Z -> Z -> F;
  feqb : F -> F -> bool;
  fceil : F -> Z;
  ftrunc : F -> Z;
  truediv_diag : forall n : Z, n <> 0 -> truediv n n = fone
}.

(** Exact rationals in lowest terms, for running the model. *)
Definition Q_truediv (a b : Z) : Q := Qred (inject_Z a / inject_Z b).
Definition Q_mul (a b : Q) : Q := Qred (a * b).
Definition Q_trunc (q : Q) : Z := Z.quot (Qnum q) (Zpos (Qden q)).

#[export] Instance Q_Scalar : Scalar Q.
Proof.
  refine {| fone := 1%Q;
            of_int := inject_Z;
            fmul := Q_mul;
            truediv := Q_truediv;
            feqb := Qeq_bool;
            fceil := Qceiling;
            ftrunc := Q_trunc |}.
  intros n Hn. unfold Q_truediv.
  change 1%Q with (Qred 1). apply Qred_complete.
  apply Qmult_inv_r. unfold Qeq; simpl. lia.
Defined.

(** ** Draw records *)

(** The clipping pair of a blit: an offset applied to its rectangle and
    an optional source region. *)
Definition Clipping : Type := (Z * Z) * option Rect.

(** [class _Blit], one field per slot. *)
Record _Blit := mk_Blit {
  surface : Surface;
  rect : Rect;
  layer : Z;
  flags : Z;
  static : bool;
  clipping : Clipping
}.

(** ** Exceptions, the display and the compositor store *)

Inductive Exn :=
| ValueError (msg : string)
| TypeError (msg : string)
| AttributeError (attr : string)
| ZeroDivisionError.

Inductive Outcome (A : Type) :=
| Return (a : A)
| Raise (e : Exn).
Arguments Return {A} a.
Arguments Raise {A} e.

(** What was done to the display surface, in order. *)
Inductive ScreenOp :=
| ScreenBlit (source : Surface) (dest : Rect) (area : option Rect) (special_flags : Z)
| ScreenBlitAt (source : Surface) (pos : Z * Z)
| SetCaption (drawn_static static_blits dynamic_blits : nat)
| DisplayUpdate (rects : list Rect).

(** Sprites and scenes are used as dictionary keys only. *)
Abbreviation Sprite := nat (only parsing).
Abbreviation Scene := nat (only parsing).

(** The attributes that only the root camera has, together with the
    display surface it draws on ([_surface] is its size, [screen] the
    operations performed on it). *)
Record RootState := mkRootState {
  _surface : Size;
  screen : list ScreenOp;
  _background : Surface;
  _blits : list _Blit;
  _clear_this_frame : list Rect;
  _clear_next_frame : list Rect;
  _soft_clear : list Rect;
  _static_blits : gmap Sprite _Blit;
  _saved_blits : gmap Scene (gmap Sprite _Blit);
  _backgrounds : gmap Scene Surface
}.

Definition set_screen (v : list ScreenOp) (s : RootState) : RootState :=
  mkRootState (_surface s) v (_background s) (_blits s) (_clear_this_frame s)
    (_clear_next_frame s) (_soft_clear s) (_static_blits s) (_saved_blits s)
    (_backgrounds s).
Definition set_background_field (v : Surface) (s : RootState) : RootState :=
  mkRootState (_surface s) (screen s) v (_blits s) (_clear_this_frame s)
    (_clear_next_frame s) (_soft_clear s) (_static_blits s) (_saved_blits s)
    (_backgrounds s).
Definition set_blits (v : list _Blit) (s : RootState) : RootState :=
  mkRootState (_surface s) (screen s) (_background s) v (_clear_this_frame s)
    (_clear_next_frame s) (_soft_clear s) (_static_blits s) (_saved_blits s)
    (_backgrounds s).
Definition set_clear_this_frame (v : list Rect) (s : RootState) : RootState :=
  mkRootState (_surface s) (screen s) (_background s) (_blits s) v
    (_clear_next_frame s) (_soft_clear s) (_static_blits s) (_saved_blits s)
    (_backgrounds s).
Definition set_clear_next_frame (v : list Rect) (s : RootState) : RootState :=
  mkRootState (_surface s) (screen s) (_background s) (_blits s)
    (_clear_this_frame s) v (_soft_clear s) (_static_blits s) (_saved_blits s)
    (_backgrounds s).
Definition set_soft_clear (v : list Rect) (s : RootState) : RootState :=
  mkRootState (_surface s) (screen s) (_background s) (_blits s)
    (_clear_this_frame s) (_clear_next_frame s) v (_static_blits s)
    (_saved_blits s) (_backgrounds s).
Definition set_static_blits (v : gmap Sprite _Blit) (s : RootState) : RootState :=
  mkRootState (_surface s) (screen s) (_background s) (_blits s)
    (_clear_this_frame s) (_clear_next_frame s) (_soft_clear s) v
    (_saved_blits s) (_backgrounds s).
Definition set_saved_blits (v : gmap Scene (gmap Sprite _Blit)) (s : RootState) : RootState :=
  mkRootState (_surface s) (screen s) (_background s) (_blits s)
    (_clear_this_frame s) (_clear_next_frame s) (_soft_clear s)
    (_static_blits s) v (_backgrounds s).
Definition set_backgrounds (v : gmap Scene Surface) (s : RootState) : RootState :=
  mkRootState (_surface s) (screen s) (_background s) (_blits s)
    (_clear_this_frame s) (_clear_next_frame s) (_soft_clear s)
    (_static_blits s) (_saved_blits s) v.

(** ** The monad: compositor state plus Python exceptions

    A raised exception keeps the store as it was when it was raised. *)

Definition M (A : Type) : Type := RootState -> Outcome A * RootState.

Definition ret {A} (a : A) : M A := fun s => (Return a, s).
Definition raise {A} (e : Exn) : M A := fun s => (Raise e, s).
Definition bind {A B} (m : M A) (k : A -> M B) : M B :=
  fun s => match m s with
           | (Return a, s') => k a s'
           | (Raise e, s') => (Raise e, s')
           end.
Definition gets {A} (f : RootState -> A) : M A := fun s => (Return (f s), s).
Definition modify (f : RootState -> RootState) : M unit := fun s => (Return tt, f s).

Declare Scope py_scope.
Delimit Scope py_scope with py.
Notation "x <- m ;; k" := (bind m (fun x => k))
  (at level 100, m at next level, right associativity) : py_scope.
Notation "m ;;; k" := (bind m (fun _ => k))
  (at level 100, right associativity) : py_scope.
Local Open Scope py_scope.

(** [for x in l: body], threading the loop's local variables. *)
Fixpoint for_each {A L} (body : L -> A -> M L) (l : list A) (loc : L) : M L :=
  match l with
  | [] => ret loc
  | x :: rest => loc' <- body loc x ;; for_each body rest loc'
  end.

(** ** pygame surface operations *)

(** [s.subsurface(r)]: pygame refuses a rectangle that leaves [s]. *)
Definition subsurface (s : Surface) (r : Rect) : M Surface :=
  if (rleft r <? 0) || (rtop r <? 0) ||
     ((get_size s).1 <? rright r) || ((get_size s).2 <? rbottom r)
  then raise (ValueError "subsurface rectangle outside surface area")
  else ret (Subsurface s r).

(** One axis of the blit clipping done by the display library: the
    source span is cut to the source surface, the destination span to the
    target of length [tlen]; returns destination start and length. *)
Definition blit_axis (srcpos srclen surflen dpos tlen : Z) : Z * Z :=
  let '(len, dpos, srcpos) :=
    if srcpos <? 0 then (srclen + srcpos, dpos - srcpos, 0)
    else (srclen, dpos, srcpos) in
  let len := if surflen - srcpos <? len then surflen - srcpos else len in
  let '(len, dpos) := if 0 <? 0 - dpos then (len - (0 - dpos), 0) else (len, dpos) in
  let len := if 0 <? dpos + len - tlen then len - (dpos + len - tlen) else len in
  (dpos, len).

(** The rectangle [screen.blit(source, dest, area)] returns: the area of
    the affected pixels. *)
Definition blit_area (target : Size) (source : Surface) (dest : Rect)
    (area : option Rect) : Rect :=
  let src := match area with Some a => a | None => get_rect source end in
  let '(x, w) := blit_axis (rleft src) (rwidth src) (get_size source).1 (rleft dest) target.1 in
  let '(y, h) := blit_axis (rtop src) (rheight src) (get_size source).2 (rtop dest) target.2 in
  if (0 <? w) && (0 <? h) then mkRect x y w h else mkRect x y 0 0.

(** [screen.blit(source, dest, area, special_flags)] *)
Definition screen_blit (source : Surface) (dest : Rect) (area : option Rect)
    (special_flags : Z) : M Rect :=
  sz <- gets _surface ;;
  ops <- gets screen ;;
  modify (set_screen (ops ++ [ScreenBlit source dest area special_flags])) ;;;
  ret (blit_area sz source dest area).

(** [list.sort(key=attrgetter('layer'))]: stable, ascending. *)
Fixpoint insert_by_layer (b : _Blit) (l : list _Blit) : list _Blit :=
  match l with
  | [] => [b]
  | c :: rest => if layer b <=? layer c then b :: c :: rest
                 else c :: insert_by_layer b rest
  end.

Definition sort_by_layer (l : list _Blit) : list _Blit :=
  foldr insert_by_layer [] l.

(** Exceptions in code that does not touch the store. *)
Definition obind {A B} (m : Outcome A) (k : A -> Outcome B) : Outcome B :=
  match m with
  | Return a => k a
  | Raise e => Raise e
  end.
Notation "x <-- m ;; k" := (obind m (fun x => k))
  (at level 100, m at next level, right associativity) : py_scope.

(** Subscripting a [_Blit]: the class defines only [__slots__] and
    [__init__], so there is no [__getitem__]. *)
Definition _Blit_getitem (b : _Blit) (i : Z) : M Rect :=
  raise (TypeError "'_Blit' object does not support indexing").

(** Reading [b.surf]: [surf] is not one of the slots of [_Blit]. *)
Definition _Blit_surf (b : _Blit) : M Surface :=
  raise (AttributeError "surf").

(** The root camera object, as seen through [_rs]. *)
Inductive RootRef := TheRoot.

(** ** Cameras *)

Section Camera.

Context {F : Type} `{Scalar F}.

(** [pygame.display.get_surface().get_size()] and [pygame.version.vernum],
    fixed for the run. *)
Variable display : Size.
Variable vernum : Z * Z * Z.

Definition Vec : Type := F * F.

Definition vec_eqb (a b : Vec) : bool := feqb a.1 b.1 && feqb a.2 b.2.

(** Modelled from the spec: [spyral.point.scale], which is not part of
    this file; the position is multiplied by the scale factor,
    componentwise. *)
Definition point_scale (point factor : Vec) : Vec :=
  (fmul point.1 factor.1, fmul point.2 factor.2).

(** Modelled from the spec: the product of two [spyral.Vec2D], which is
    not part of this file; scales compose componentwise. *)
Definition Vec2D_mul (a b : Vec) : Vec := (fmul a.1 b.1, fmul a.2 b.2).

(** [pygame.Rect(position, size)]: float coordinates are truncated. *)
Definition Rect_at (position : Vec) (size : Size) : Rect :=
  mkRect (ftrunc position.1) (ftrunc position.2) size.1 size.2.

(** [_scale(s, factor)], named [_scale_fn] here because cameras have an
    attribute [_scale] too.  The memoizing decorator does not change
    what is returned, and pygame's resampling is taken to succeed. *)
Definition _scale_fn (s : Surface) (factor : Vec) : Surface :=
  if vec_eqb factor (fone, fone) then s
  else
    let size := get_size s in
    let new_size := (fceil (fmul (of_int size.1) factor.1),
                     fceil (fmul (of_int size.2) factor.2)) in
    Smoothscale s new_size.

(** A camera.  [_rect], [_rs] and [_parent] are attributes that only
    some cameras have. *)
#[warnings="-register-all"]
Inductive Camera := mkCamera {
  _rsize : Size;
  _vsize : Size;
  _scale : Vec;
  _root : bool;
  _rect : option Rect;
  _rs : option RootRef;
  _parent : option Camera
}.

(** Integer true division. *)
Definition py_truediv (a b : Z) : Outcome F :=
  if b =? 0 then Raise ZeroDivisionError else Return (truediv a b).

(** The compositor state a fresh root camera starts with. *)
Definition root_state (rsize : Size) : RootState :=
  let background := Filled rsize (255, 255, 255) in
  mkRootState display [ScreenBlitAt background (0, 0)] background
    [] [] [] [] ∅ ∅ ∅.

(** [Camera.__init__]; a root camera also gets its compositor state. *)
Definition Camera_init (virtual_size real_size : option Size) (root : bool)
    : Outcome (Camera * option RootState) :=
  rsize <-- (if root then
               match real_size with
               | None => Return display
               | Some rs => if size_eqb rs (0, 0) then Return display
                            else Return rs
               end
             else
               match real_size with
               | None => Raise (ValueError "Must specify a real_size.")
               | Some rs => Return rs
               end) ;;
  vs <-- (match virtual_size with
          | None => Return (rsize, (fone, fone))
          | Some v =>
              if size_eqb v (0, 0) then Return (rsize, (fone, fone))
              else
                sx <-- py_truediv rsize.1 v.1 ;;
                sy <-- py_truediv rsize.2 v.2 ;;
                Return (v, (sx, sy))
          end) ;;
  if root then
    Return (mkCamera rsize vs.1 vs.2 true
              (Some (mkRect 0 0 display.1 display.2)) (Some TheRoot) None,
            Some (root_state rsize))
  else
    Return (mkCamera rsize vs.1 vs.2 false None None None, None).

(** [Camera.get_size] *)
Definition Camera_get_size (self : Camera) : Size := _vsize self.

(** [Camera.get_rect] *)
Definition Camera_get_rect (self : Camera) : Rect :=
  mkRect 0 0 (_vsize self).1 (_vsize self).2.

Definition getattr {A} (name : string) (field : option A) : Outcome A :=
  match field with
  | Some a => Return a
  | None => Raise (AttributeError name)
  end.

Definition lift {A} (o : Outcome A) : M A := fun s => (o, s).

(** [Camera.make_child] *)
Definition make_child (self : Camera) (virtual_size real_size : option Size)
    : Outcome Camera :=
  let real_size :=
    match real_size with
    | None => Camera_get_size self
    | Some rs => if size_eqb rs (0, 0) then Camera_get_size self else rs
    end in
  y <-- Camera_init virtual_size (Some real_size) false ;;
  let y_scale := Vec2D_mul (_scale self) (_scale y.1) in
  let extent := point_scale (of_int real_size.1, of_int real_size.2)
                            (_scale self) in
  let y_rect := mkRect 0 0 (ftrunc extent.1) (ftrunc extent.2) in
  rs <-- getattr "_rs" (_rs self) ;;
  Return (mkCamera (_rsize y.1) (_vsize y.1) y_scale (_root y.1)
            (Some y_rect) (Some rs) (Some self)).

Definition append_clear_this_frame (r : Rect) : M unit :=
  l <- gets _clear_this_frame ;; modify (set_clear_this_frame (l ++ [r])).

Definition append_clear_next_frame (r : Rect) : M unit :=
  l <- gets _clear_next_frame ;; modify (set_clear_next_frame (l ++ [r])).

Definition append_soft_clear (r : Rect) : M unit :=
  l <- gets _soft_clear ;; modify (set_soft_clear (l ++ [r])).

Definition append_blits (b : _Blit) : M unit :=
  l <- gets _blits ;; modify (set_blits (l ++ [b])).

(** [Camera.set_background]; [executing] is
    [spyral._get_executing_scene()] and [current] is
    [spyral.director.get_scene()]. *)
Definition set_background (self : Camera) (image : Surface)
    (executing current : Scene) : M unit :=
  let surface := image in
  let scene := executing in
  if negb (size_eqb (get_size surface) (_vsize self)) then
    raise (ValueError "Background size must match the display size.")
  else if negb (_root self) then
    if Nat.eqb scene current then
      _ <- lift (getattr "_rs" (_rs self)) ;;
      modify (set_background_field surface) ;;;
      append_clear_this_frame (get_rect surface)
    else
      _ <- lift (getattr "_rs" (_rs self)) ;;
      bgs <- gets _backgrounds ;;
      modify (set_backgrounds (<[scene := surface]> bgs))
  else ret tt.

(** [Camera._blit] *)
Definition _blit (self : Camera) (surface : Surface) (position : Vec)
    (layer flags : Z) (clipping : Clipping) : M unit :=
  let position := point_scale position (_scale self) in
  let new_surface := _scale_fn surface (_scale self) in
  let r := Rect_at position (get_size new_surface) in
  self_rect <- lift (getattr "_rect" (_rect self)) ;;
  if contains self_rect r then
    _ <- lift (getattr "_rs" (_rs self)) ;;
    append_blits (mk_Blit new_surface r layer flags false clipping)
  else if colliderect self_rect r then
    let x := clip r self_rect in
    let y := move x (- rleft r, - rtop r) in
    new_surface <- subsurface new_surface y ;;
    let r := x in
    _ <- lift (getattr "_rs" (_rs self)) ;;
    append_blits (mk_Blit new_surface r layer flags false clipping)
  else ret tt.

(** [Camera._static_blit] *)
Definition _static_blit (self : Camera) (sprite : Sprite) (surface : Surface)
    (position : Vec) (layer flags : Z) (clipping : Clipping) : M unit :=
  let position := point_scale position (_scale self) in
  _ <- lift (getattr "_rs" (_rs self)) ;;
  static_blits <- gets _static_blits ;;
  r2 <- match static_blits !! sprite with
        | Some old => r2 <- _Blit_getitem old 1 ;; ret (Some r2)
        | None => ret None
        end ;;
  let new_surface := _scale_fn surface (_scale self) in
  let r := Rect_at position (get_size new_surface) in
  self_rect <- lift (getattr "_rect" (_rect self)) ;;
  let store (new_surface : Surface) (r : Rect) : M unit :=
    static_blits <- gets _static_blits ;;
    modify (set_static_blits
              (<[sprite := mk_Blit new_surface r layer flags true clipping]>
                 static_blits)) ;;;
    match r2 with
    | Some r2 => append_clear_this_frame (union_rect r2 r)
    | None => append_clear_this_frame r
    end in
  if contains self_rect r then store new_surface r
  else if colliderect self_rect r then
    let x := clip r self_rect in
    let y := move x (- rleft r, - rtop r) in
    new_surface <- subsurface new_surface y ;;
    store new_surface x
  else ret tt.

(** [Camera._remove_static_blit]; a child hands the call to the root. *)
Definition _remove_static_blit (self : Camera) (sprite : Sprite) : M unit :=
  _ <- (if negb (_root self) then lift (getattr "_rs" (_rs self))
        else ret TheRoot) ;;
  static_blits <- gets _static_blits ;;
  match static_blits !! sprite with
  | Some x =>
      modify (set_static_blits (delete sprite static_blits)) ;;;
      append_clear_this_frame (rect x)
  | None => ret tt
  end.

(** [pygame.version.vernum < (1, 8)], a comparison of tuples. *)
Definition blit_flags_available : bool :=
  let '(major, minor, _) := vernum in
  (major <? 1) || ((major =? 1) && (minor <? 8)).

(** The first phase of [_draw]: the background is put back over every
    rectangle to clear. *)
Definition restore_rect (_ : unit) (i : Rect) : M unit :=
  background <- gets _background ;;
  let x := get_rect background in
  let i := clip x i in
  b <- subsurface background i ;;
  _ <- screen_blit b i None 0 ;;
  ret tt.

(** The body of the loop over the sorted blits in [_draw].  Its local
    variables are [soft_clear], the list that was in [self._soft_clear]
    when the pass began, and the counter [drawn_static]; [clear_this] and
    [clear_next] are the lists held in the store.  The two inner loops
    stop at the first rectangle that collides. *)
Definition draw_blit (screen_rect : Rect) (loc : list Rect * nat)
    (blit : _Blit) : M (list Rect * nat) :=
  let '(soft_clear, drawn_static) := loc in
  let '(blit_clipping_offset, blit_clipping_region) := clipping blit in
  let blit_rect := move (rect blit) blit_clipping_offset in
  let blit_flags := if blit_flags_available then flags blit else 0 in
  if negb (contains screen_rect blit_rect) &&
     negb (colliderect screen_rect blit_rect) then ret loc
  else if static blit then
    clear_this <- gets _clear_this_frame ;;
    if existsb (colliderect blit_rect) clear_this then
      _ <- screen_blit (surface blit) blit_rect blit_clipping_region blit_flags ;;
      append_clear_this_frame blit_rect ;;;
      append_soft_clear blit_rect ;;;
      ret (soft_clear, S drawn_static)
    else if existsb (colliderect blit_rect) soft_clear then
      _ <- screen_blit (surface blit) blit_rect blit_clipping_region blit_flags ;;
      ret (soft_clear ++ [rect blit], S drawn_static)
    else ret loc
  else
    if contains screen_rect blit_rect then
      r <- screen_blit (surface blit) blit_rect blit_clipping_region blit_flags ;;
      append_clear_next_frame r ;;;
      ret loc
    else if colliderect screen_rect blit_rect then
      let x := clip (rect blit) screen_rect in
      let y := move x (- rleft blit_rect, - rtop blit_rect) in
      surf <- _Blit_surf blit ;;
      b <- subsurface surf y ;;
      r <- screen_blit (surface blit) blit_rect blit_clipping_region blit_flags ;;
      append_clear_next_frame r ;;;
      ret loc
    else ret loc.

Definition screen_op (op : ScreenOp) : M unit :=
  ops <- gets screen ;; modify (set_screen (ops ++ [op])).

(** [Camera._draw].  The values of the static-blit dictionary come in
    the order the map lists them. *)
Definition _draw (self : Camera) : M unit :=
  if negb (_root self) then ret tt
  else
    clear_this <- gets _clear_this_frame ;;
    soft_clear <- gets _soft_clear ;;
    for_each restore_rect (clear_this ++ soft_clear) tt ;;;
    statics <- gets _static_blits ;;
    dynamics <- gets _blits ;;
    let static_blits := size statics in
    let dynamic_blits := length dynamics in
    let blits := sort_by_layer (dynamics ++ (map_to_list statics).*2) in
    modify (set_soft_clear []) ;;;
    display_size <- gets _surface ;;
    let screen_rect := mkRect 0 0 display_size.1 display_size.2 in
    loc <- for_each (draw_blit screen_rect) blits (soft_clear, 0%nat) ;;
    screen_op (SetCaption loc.2 static_blits dynamic_blits) ;;;
    clear_next <- gets _clear_next_frame ;;
    clear_this <- gets _clear_this_frame ;;
    screen_op (DisplayUpdate (clear_next ++ clear_this)) ;;;
    modify (set_clear_this_frame clear_next) ;;;
    modify (set_clear_next_frame []) ;;;
    modify (set_blits []).

Definition root_only (self : Camera) (attr : string) : M unit :=
  if _root self then ret tt else raise (AttributeError attr).

(** [Camera._exit_scene] *)
Definition _exit_scene (self : Camera) (scene : Scene) : M unit :=
  root_only self "_saved_blits" ;;;
  saved <- gets _saved_blits ;;
  statics <- gets _static_blits ;;
  modify (set_saved_blits (<[scene := statics]> saved)) ;;;
  modify (set_static_blits ∅) ;;;
  backgrounds <- gets _backgrounds ;;
  background <- gets _background ;;
  modify (set_backgrounds (<[scene := background]> backgrounds)) ;;;
  let fresh := Filled (_rsize self) (255, 255, 255) in
  modify (set_background_field fresh) ;;;
  screen_op (ScreenBlitAt fresh (0, 0)).

(** [Camera._enter_scene] *)
Definition _enter_scene (self : Camera) (scene : Scene) : M unit :=
  root_only self "_saved_blits" ;;;
  saved <- gets _saved_blits ;;
  statics <- gets _static_blits ;;
  modify (set_static_blits (default statics (saved !! scene))) ;;;
  modify (set_saved_blits (delete scene saved)) ;;;
  backgrounds <- gets _backgrounds ;;
  match backgrounds !! scene with
  | Some background =>
      modify (set_background_field background) ;;;
      modify (set_backgrounds (delete scene backgrounds)) ;;;
      append_clear_this_frame (get_rect background)
  | None => ret tt
  end.

(** [Camera.redraw] *)
Definition redraw (self : Camera) : M unit :=
  root_only self "_clear_this_frame" ;;;
  append_clear_this_frame (mkRect 0 0 (_vsize self).1 (_vsize self).2).

(** ** Notions used to state the properties *)

(** The rectangle a camera computes for a surface drawn at a position:
    the position and the surface scaled by the camera's factor. *)
Definition dest_rect (self : Camera) (surface : Surface) (position : Vec) : Rect :=
  Rect_at (point_scale position (_scale self))
          (get_size (_scale_fn surface (_scale self))).

(** Real size over virtual size, componentwise. *)
Definition size_ratio (c : Camera) : Vec :=
  (truediv (_rsize c).1 (_vsize c).1, truediv (_rsize c).2 (_vsize c).2).

(** The product of the size ratios of a camera and of all its
    ancestors, from the outermost one inwards. *)
Fixpoint cumulative_scale (c : Camera) : Vec :=
  match _parent c with
  | None => size_ratio c
  | Some p => Vec2D_mul (cumulative_scale p) (size_ratio c)
  end.

(** Cameras obtained the documented way: the root, and children made
    with [make_child]. *)
Inductive made : Camera -> Prop :=
| made_root virtual_size real_size c st :
    Camera_init virtual_size real_size true = Return (c, st) ->
    made c
| made_child p virtual_size real_size c :
    made p ->
    make_child p virtual_size real_size = Return c ->
    made c.

(** No real size along the ancestor chain has a zero component. *)
Fixpoint real_sizes_nonzero (c : Camera) : Prop :=
  (_rsize c).1 <> 0 /\ (_rsize c).2 <> 0 /\
  match _parent c with
  | None => True
  | Some p => real_sizes_nonzero p
  end.

End Camera.

(** The rectangle of a record on the screen: its rectangle moved by
    the clipping offset. *)
Definition on_screen_rect (b : _Blit) : Rect :=
  move (rect b) (clipping b).1.

(** The rectangle the display reports when a record is blitted on a
    display of the given size. *)
Definition shown_rect (display_size : Size) (b : _Blit) : Rect :=
  blit_area display_size (surface b) (on_screen_rect b) (clipping b).2.

(** The screen operation that puts the background back over [i]. *)
Definition restore_op (background : Surface) (i : Rect) : ScreenOp :=
  let i := clip (get_rect background) i in
  ScreenBlit (Subsurface background i) i None 0.

(** The screen operation that draws a record, given whether blit flags
    are available. *)
Definition draw_op (flags_available : bool) (b : _Blit) : ScreenOp :=
  ScreenBlit (surface b) (on_screen_rect b) (clipping b).2
    (if flags_available then flags b else 0).

Definition is_dynamic (b : _Blit) : bool := negb (static b).

(** Every record in the static-blit dictionary is marked static. *)
Definition statics_are_static (st : RootState) : Prop :=
  map_Forall (fun (_ : nat) (b : _Blit) => static b = true) (_static_blits st).

(** A record the loop of the draw pass can handle on a display of the
    given size: a static one, or a dynamic one that lies inside the
    screen. *)
Definition drawable (display_size : Size) (b : _Blit) : Prop :=
  static b = true \/
  contains (mkRect 0 0 display_size.1 display_size.2) (on_screen_rect b) = true.

(** What the loop over the records keeps: everything but the screen,
    which only grows, and the three lists of rectangles. *)
Definition loop_keeps (st st' : RootState) : Prop :=
  _surface st' = _surface st /\ _background st' = _background st /\
  _blits st' = _blits st /\ _static_blits st' = _static_blits st /\
  _saved_blits st' = _saved_blits st /\ _backgrounds st' = _backgrounds st /\
  exists ops, screen st' = screen st ++ ops.

(** [A] lies inside [B]. *)
Definition inside (A B : Rect) : Prop :=
  rleft B <= rleft A /\ rtop B <= rtop A /\
  rright A <= rright B /\ rbottom A <= rbottom B.

(** A rectangle with an area. *)
Definition positive (r : Rect) : Prop := 0 < rwidth r /\ 0 < rheight r.

(** The surface of a record is exactly as large as its rectangle. *)
Definition fits (b : _Blit) : Prop :=
  get_size (surface b) = (rwidth (rect b), rheight (rect b)).

(** A dynamic record that shows only in part on a display of the given
    size: the case in which the draw pass reads [blit.surf]. *)
Definition partly_visible (display_size : Size) (b : _Blit) : bool :=
  let screen_rect := mkRect 0 0 display_size.1 display_size.2 in
  negb (static b) && negb (contains screen_rect (on_screen_rect b)) &&
  colliderect screen_rect (on_screen_rect b).

(** A dynamic record that lies inside the display. *)
Definition fully_visible (display_size : Size) (b : _Blit) : bool :=
  negb (static b) &&
  contains (mkRect 0 0 display_size.1 display_size.2) (on_screen_rect b).

(** The records of a pass in the order it handles them. *)
Definition draw_order (st : RootState) : list _Blit :=
  sort_by_layer (_blits st ++ (map_to_list (_static_blits st)).*2).

(** ** A concrete setting for running the model: a 100 x 100 display,
    pygame 1.9.1, exact rational scale factors. *)

Module Demo.

Definition display : Size := (100, 100).
Definition vernum : Z * Z * Z := (1, 9, 1).

(** The root camera [Camera(root=True)] and its fresh state. *)
Definition root : Camera (F := Q) :=
  mkCamera (100, 100) (100, 100) (1%Q, 1%Q) true
    (Some (mkRect 0 0 100 100)) (Some TheRoot) None.

Definition fresh : RootState := root_state display (100, 100).

Definition sprite_image : Surface := Image 7 (10, 10).

Definition no_clipping : Clipping := ((0, 0), None).

(** The store a call leaves behind. *)
Definition after {A} (m : M A) (st : RootState) : RootState := (m st).2.

(** On a 200 x 200 display: a root with virtual size 100 x 100, and
    its child [make_child((50, 50), (100, 100))]. *)
Definition wide_root : Camera (F := Q) :=
  mkCamera (200, 200) (100, 100) (2%Q, 2%Q) true
    (Some (mkRect 0 0 200 200)) (Some TheRoot) None.

Definition child : Camera (F := Q) :=
  mkCamera (100, 100) (50, 50) (4%Q, 4%Q) false
    (Some (mkRect 0 0 200 200)) (Some TheRoot) (Some wide_root).

(** A camera made directly, with neither [_rect] nor [_rs]; its virtual
    size is 50 x 50. *)
Definition loose : Camera (F := Q) :=
  mkCamera (100, 100) (50, 50) (2%Q, 2%Q) false None None None.

End Demo.

(** ** More concrete values on the 100 x 100 display *)

Module Shots.

(** The record of the sprite image blitted statically at (0, 0). *)
Definition sprite_record : _Blit :=
  mk_Blit Demo.sprite_image (mkRect 0 0 10 10) 0 0 true Demo.no_clipping.

(** The store after that static blit for sprite 1. *)
Definition with_sprite : RootState :=
  set_clear_this_frame [mkRect 0 0 10 10]
    (set_static_blits {[ 1%nat := sprite_record ]} Demo.fresh).

(** Two pending blits inside the screen, the second on a lower layer. *)
Definition upper : _Blit :=
  mk_Blit Demo.sprite_image (mkRect 5 5 10 10) 3 0 false Demo.no_clipping.
Definition lower : _Blit :=
  mk_Blit Demo.sprite_image (mkRect 40 40 10 10) 1 0 false Demo.no_clipping.
Definition two_pending : RootState := set_blits [upper; lower] Demo.fresh.

(** A pending blit that the clipping offset pushes over the right edge
    of the screen. *)
Definition sliding : _Blit :=
  mk_Blit Demo.sprite_image (mkRect 5 5 10 10) 0 0 false ((92, 0), None).
Definition one_sliding : RootState := set_blits [sliding] Demo.fresh.

(** A child of the root with virtual size 50 x 50. *)
Definition view : Camera (F := Q) :=
  mkCamera (100, 100) (50, 50) (2%Q, 2%Q) false
    (Some (mkRect 0 0 100 100)) (Some TheRoot) (Some Demo.root).

Definition backdrop : Surface := Image 9 (50, 50).

End Shots.

(** * Properties *)

(** ** Rectangles *)

Lemma size_eqb_eq (a b : Size) : size_eqb a b = true <-> a = b.
Proof.
  destruct a as [a1 a2], b as [b1 b2]; unfold size_eqb; simpl.
  rewrite andb_true_iff, !Z.eqb_eq. split.
  - intros [-> ->]; reflexivity.
  - intros E; injection E; auto.
Qed.

Lemma size_eqb_neq (a b : Size) : a <> b -> size_eqb a b = false.
Proof.
  intros Hne. destruct (size_eqb a b) eqn:E; [|reflexivity].
  apply size_eqb_eq in E. contradiction.
Qed.

Ltac bool_to_Z :=
  repeat match goal with
    | H : _ && _ = true |- _ => apply andb_true_iff in H; destruct H
    | H : _ || _ = true |- _ => apply orb_true_iff in H; destruct H
    | H : _ && _ = false |- _ => apply andb_false_iff in H; destruct H
    | H : _ || _ = false |- _ => apply orb_false_iff in H; destruct H
    | H : (_ <=? _) = true |- _ => apply Z.leb_le in H
    | H : (_ <=? _) = false |- _ => apply Z.leb_gt in H
    | H : (_ <? _) = true |- _ => apply Z.ltb_lt in H
    | H : (_ <? _) = false |- _ => apply Z.ltb_ge in H
    end.

(** A rectangle that contains another one collides with it. *)
Lemma contains_colliderect (A B : Rect) :
  contains A B = true -> colliderect A B = true.
Proof.
  unfold contains, colliderect, axis_overlap, rright, rbottom. intros Hc.
  bool_to_Z.
  apply andb_true_iff; split; apply orb_true_iff; right;
    apply andb_true_iff; split; (apply Z.leb_le || apply Z.ltb_lt); lia.
Qed.

Lemma not_colliderect_not_contains (A B : Rect) :
  colliderect A B = false -> contains A B = false.
Proof.
  intros Hn. destruct (contains A B) eqn:E; [|reflexivity].
  apply contains_colliderect in E. congruence.
Qed.

Lemma clip_axis_inside (a alen b blen x w : Z) :
  clip_axis a alen b blen = Some (x, w) -> a <= x /\ x + w <= a + alen.
Proof.
  unfold clip_axis. intros Hc.
  repeat match type of Hc with
    | context [if ?c then _ else _] => destruct c eqn:?
    end; inversion Hc; subst; bool_to_Z; lia.
Qed.

(** Clipping the rectangle of a surface never leaves the surface. *)
Lemma clip_get_rect_inside (s : Surface) (i : Rect) :
  0 <= (get_size s).1 -> 0 <= (get_size s).2 ->
  let c := clip (get_rect s) i in
  0 <= rleft c /\ 0 <= rtop c /\
  rright c <= (get_size s).1 /\ rbottom c <= (get_size s).2.
Proof.
  intros Hw Hh. unfold clip, get_rect, rright, rbottom; simpl.
  destruct (clip_axis 0 (get_size s).1 (rleft i) (rwidth i)) as [[x w]|] eqn:Ex;
    [destruct (clip_axis 0 (get_size s).2 (rtop i) (rheight i)) as [[y h]|] eqn:Ey|];
    simpl; try lia.
  apply clip_axis_inside in Ex. apply clip_axis_inside in Ey. lia.
Qed.

Lemma subsurface_clip_background (bg : Surface) (i : Rect) (st : RootState) :
  surface_ok bg ->
  subsurface bg (clip (get_rect bg) i) st =
    (Return (Subsurface bg (clip (get_rect bg) i)), st).
Proof.
  intros [Hw Hh]. pose proof (clip_get_rect_inside bg i Hw Hh) as Hin.
  simpl in Hin. destruct Hin as (H1 & H2 & H3 & H4).
  unfold subsurface.
  replace (rleft (clip (get_rect bg) i) <? 0) with false
    by (symmetry; apply Z.ltb_ge; lia).
  replace (rtop (clip (get_rect bg) i) <? 0) with false
    by (symmetry; apply Z.ltb_ge; lia).
  replace ((get_size bg).1 <? rright (clip (get_rect bg) i)) with false
    by (symmetry; apply Z.ltb_ge; lia).
  replace ((get_size bg).2 <? rbottom (clip (get_rect bg) i)) with false
    by (symmetry; apply Z.ltb_ge; lia).
  reflexivity.
Qed.

(** ** Construction, backgrounds and dropped blits *)

Section Properties.

Context {F : Type} `{Scalar F}.
Variable display : Size.
Variable vernum : Z * Z * Z.

Ltac run := unfold bind, lift, getattr, gets, modify, ret, raise; simpl.

(** C6.  [Camera(virtual_size, None, False)] raises the [ValueError]
    that asks for a real size, whatever the virtual size; with a real
    size given, no [ValueError] is raised at all. *)
Theorem init_needs_real_size :
  (forall virtual_size,
      Camera_init (F := F) display virtual_size None false
      = Raise (ValueError "Must specify a real_size.")) /\
  (forall virtual_size real_size msg,
      Camera_init (F := F) display virtual_size (Some real_size) false
      <> Raise (ValueError msg)).
Proof.
  split.
  - intros virtual_size. reflexivity.
  - intros virtual_size real_size msg. unfold Camera_init, obind, py_truediv.
    simpl.
    destruct virtual_size as [v|]; [|discriminate].
    destruct (size_eqb v (0, 0)); [discriminate|].
    destruct (v.1 =? 0); [discriminate|].
    destruct (v.2 =? 0); discriminate.
Qed.

(** C7.  [set_background] with an image whose size is not the camera's
    virtual size raises the size [ValueError] and leaves the whole store
    as it was. *)
Theorem set_background_size_mismatch
    (self : Camera (F := F)) (image : Surface) (executing current : nat)
    (st : RootState) :
  get_size image <> _vsize self ->
  set_background self image executing current st
  = (Raise (ValueError "Background size must match the display size."), st).
Proof.
  intros Hne. unfold set_background.
  rewrite (size_eqb_neq _ _ Hne). reflexivity.
Qed.

(** C9.  On the root camera, [set_background] with an image of the right
    size returns and changes nothing in the store. *)
Theorem set_background_root_unchanged
    (self : Camera (F := F)) (image : Surface) (executing current : nat)
    (st : RootState) :
  _root self = true ->
  get_size image = _vsize self ->
  set_background self image executing current st = (Return tt, st).
Proof.
  intros Hroot Hsize. unfold set_background.
  apply size_eqb_eq in Hsize. rewrite Hsize, Hroot. reflexivity.
Qed.

(** C8.  A [_blit] whose scaled rectangle does not touch the camera's
    rectangle returns normally and leaves the whole store, the list of
    pending blits included, as it was. *)
Theorem blit_outside_dropped
    (self : Camera (F := F)) (surface : Surface) (position : Vec)
    (layer flags : Z) (clipping : Clipping) (bounds : Rect) (st : RootState) :
  _rect self = Some bounds ->
  colliderect bounds (dest_rect self surface position) = false ->
  _blit self surface position layer flags clipping st = (Return tt, st).
Proof.
  intros Hrect Hout. unfold _blit. rewrite Hrect. run.
  fold (dest_rect self surface position).
  rewrite (not_colliderect_not_contains _ _ Hout), Hout. reflexivity.
Qed.

(** A [_static_blit] for a sprite that has no entry yet, with a scaled
    rectangle that does not touch the camera's rectangle, returns and
    leaves the store as it was. *)
Lemma static_blit_outside_fresh
    (self : Camera (F := F)) (sprite : nat) (surface : Surface)
    (position : Vec) (layer flags : Z) (clipping : Clipping)
    (bounds : Rect) (root : RootRef) (st : RootState) :
  _rs self = Some root ->
  _rect self = Some bounds ->
  _static_blits st !! sprite = None ->
  colliderect bounds (dest_rect self surface position) = false ->
  _static_blit self sprite surface position layer flags clipping st
  = (Return tt, st).
Proof.
  intros Hrs Hrect Hnone Hout. unfold _static_blit. rewrite Hrs, Hrect. run.
  rewrite Hnone. run.
  fold (dest_rect self surface position).
  rewrite (not_colliderect_not_contains _ _ Hout), Hout. reflexivity.
Qed.

(** A [_static_blit] for a sprite that already has an entry stops at the
    subscript [rs._static_blits[sprite][1]], before anything is stored. *)
Lemma static_blit_again_raises
    (self : Camera (F := F)) (sprite : nat) (surface : Surface)
    (position : Vec) (layer flags : Z) (clipping : Clipping)
    (old : _Blit) (root : RootRef) (st : RootState) :
  _rs self = Some root ->
  _static_blits st !! sprite = Some old ->
  _static_blit self sprite surface position layer flags clipping st
  = (Raise (TypeError "'_Blit' object does not support indexing"), st).
Proof.
  intros Hrs Hold. unfold _static_blit. rewrite Hrs. run.
  rewrite Hold. reflexivity.
Qed.

(** The first [_static_blit] for a sprite, with a rectangle inside the
    camera's rectangle, stores the record and schedules its rectangle. *)
Lemma static_blit_fresh_inside
    (self : Camera (F := F)) (sprite : nat) (surface : Surface)
    (position : Vec) (layer flags : Z) (clipping : Clipping)
    (bounds : Rect) (root : RootRef) (st : RootState) :
  _rs self = Some root ->
  _rect self = Some bounds ->
  _static_blits st !! sprite = None ->
  contains bounds (dest_rect self surface position) = true ->
  _static_blit self sprite surface position layer flags clipping st
  = (Return tt,
     set_clear_this_frame
       (_clear_this_frame st ++ [dest_rect self surface position])
       (set_static_blits
          (<[sprite := mk_Blit (_scale_fn surface (_scale self))
                         (dest_rect self surface position)
                         layer flags true clipping]> (_static_blits st))
          st)).
Proof.
  intros Hrs Hrect Hnone Hin. unfold _static_blit. rewrite Hrs, Hrect. run.
  rewrite Hnone. run.
  fold (dest_rect self surface position). rewrite Hin. reflexivity.
Qed.

(** ** The draw pass, record by record *)

Lemma draw_blit_unfold (screen_rect : Rect) (loc : list Rect * nat) (b : _Blit) :
  draw_blit vernum screen_rect loc b =
  (let blit_rect := on_screen_rect b in
   let blit_flags := if blit_flags_available vernum then flags b else 0 in
   if negb (contains screen_rect blit_rect) &&
      negb (colliderect screen_rect blit_rect) then ret loc
   else if static b then
     bind (gets _clear_this_frame) (fun clear_this =>
     if existsb (colliderect blit_rect) clear_this then
       bind (screen_blit (surface b) blit_rect (clipping b).2 blit_flags) (fun _ =>
       bind (append_clear_this_frame blit_rect) (fun _ =>
       bind (append_soft_clear blit_rect) (fun _ =>
       ret (loc.1, S loc.2))))
     else if existsb (colliderect blit_rect) loc.1 then
       bind (screen_blit (surface b) blit_rect (clipping b).2 blit_flags) (fun _ =>
       ret (loc.1 ++ [rect b], S loc.2))
     else ret loc)
   else
     if contains screen_rect blit_rect then
       bind (screen_blit (surface b) blit_rect (clipping b).2 blit_flags) (fun r =>
       bind (append_clear_next_frame r) (fun _ => ret loc))
     else if colliderect screen_rect blit_rect then
       let x := clip (rect b) screen_rect in
       let y := move x (- rleft blit_rect, - rtop blit_rect) in
       bind (_Blit_surf b) (fun surf =>
       bind (subsurface surf y) (fun b' =>
       bind (screen_blit (surface b) blit_rect (clipping b).2 blit_flags) (fun r =>
       bind (append_clear_next_frame r) (fun _ => ret loc))))
     else ret loc)%py.
Proof.
  unfold draw_blit, on_screen_rect.
  destruct loc as [soft_clear drawn_static].
  destruct (clipping b) as [offset region]. reflexivity.
Qed.

(** A dynamic record that only partly overlaps the screen stops the pass
    at [blit.surf]; the store is left as it was. *)
Lemma draw_blit_dynamic_partial (screen_rect : Rect) (loc : list Rect * nat)
    (b : _Blit) (st : RootState) :
  static b = false ->
  contains screen_rect (on_screen_rect b) = false ->
  colliderect screen_rect (on_screen_rect b) = true ->
  draw_blit vernum screen_rect loc b st = (Raise (AttributeError "surf"), st).
Proof.
  intros Hdyn Hnc Hcol. rewrite draw_blit_unfold. simpl.
  rewrite Hnc, Hcol, Hdyn. reflexivity.
Qed.

(** A dynamic record that lies inside the screen is blitted, and the
    rectangle the display reports is appended to [clear_next]. *)
Lemma draw_blit_dynamic_inside (loc : list Rect * nat)
    (b : _Blit) (st : RootState) :
  static b = false ->
  contains (mkRect 0 0 (_surface st).1 (_surface st).2) (on_screen_rect b) = true ->
  draw_blit vernum (mkRect 0 0 (_surface st).1 (_surface st).2) loc b st
  = (Return loc,
     set_clear_next_frame
       (_clear_next_frame st ++ [shown_rect (_surface st) b])
       (set_screen (screen st ++ [draw_op (blit_flags_available vernum) b]) st)).
Proof.
  intros Hdyn Hin. rewrite draw_blit_unfold. simpl.
  rewrite Hin, Hdyn. reflexivity.
Qed.

(** C4, as the code has it.  A static record on the screen that
    collides with no rectangle of [clear_this] but with one of the list
    [soft_clear] taken over from the previous pass is drawn, and one
    rectangle is appended to that taken-over list, which later records
    of the same pass are tested against: for a record without clipping
    offset it is the record's on-screen rectangle.  The new [_soft_clear]
    of the store, like the rest of the store apart from the screen, is
    left as it was. *)
Theorem static_soft_clear_redraw
    (screen_rect : Rect) (soft_clear : list Rect) (drawn_static : nat)
    (b : _Blit) (st : RootState) :
  static b = true ->
  colliderect screen_rect (on_screen_rect b) = true ->
  existsb (colliderect (on_screen_rect b)) (_clear_this_frame st) = false ->
  existsb (colliderect (on_screen_rect b)) soft_clear = true ->
  exists appended : Rect,
    draw_blit vernum screen_rect (soft_clear, drawn_static) b st
    = (Return (soft_clear ++ [appended], S drawn_static),
       set_screen (screen st ++ [draw_op (blit_flags_available vernum) b]) st) /\
    ((clipping b).1 = (0, 0) -> appended = on_screen_rect b) /\
    _soft_clear
      (draw_blit vernum screen_rect (soft_clear, drawn_static) b st).2
    = _soft_clear st.
Proof.
  intros Hst Hcol Hthis Hsoft.
  assert (E : draw_blit vernum screen_rect (soft_clear, drawn_static) b st
              = (Return (soft_clear ++ [rect b], S drawn_static),
                 set_screen
                   (screen st ++ [draw_op (blit_flags_available vernum) b]) st)).
  { rewrite draw_blit_unfold. simpl.
    rewrite Hcol, andb_false_r, Hst. unfold bind at 1, gets. simpl.
    rewrite Hthis, Hsoft. reflexivity. }
  exists (rect b). split; [exact E|]. split.
  - intros Hoff. unfold on_screen_rect. rewrite Hoff.
    destruct (rect b) as [x y w h]. unfold move. simpl. f_equal; lia.
  - rewrite E. reflexivity.
Qed.

Lemma loop_keeps_refl (st : RootState) : loop_keeps st st.
Proof.
  unfold loop_keeps. repeat split. exists []. symmetry. apply app_nil_r.
Qed.

Lemma loop_keeps_trans (a b c : RootState) :
  loop_keeps a b -> loop_keeps b c -> loop_keeps a c.
Proof.
  unfold loop_keeps.
  intros (A1 & A2 & A3 & A4 & A5 & A6 & o1 & A7)
         (B1 & B2 & B3 & B4 & B5 & B6 & o2 & B7).
  repeat split; try congruence.
  exists (o1 ++ o2). rewrite B7, A7. symmetry. apply app_assoc.
Qed.

(** One drawable record: the loop body returns, and [clear_next] grows
    exactly when the record is dynamic. *)
Lemma draw_blit_drawable (loc : list Rect * nat) (b : _Blit) (st : RootState) :
  drawable (_surface st) b ->
  exists loc' st',
    draw_blit vernum (mkRect 0 0 (_surface st).1 (_surface st).2) loc b st
    = (Return loc', st') /\
    loop_keeps st st' /\
    _clear_next_frame st'
    = _clear_next_frame st
      ++ (if static b then [] else [shown_rect (_surface st) b]).
Proof.
  intros Hd. destruct (static b) eqn:Hst.
  - rewrite draw_blit_unfold. simpl. rewrite Hst.
    destruct (negb _ && negb _).
    { exists loc, st. split; [reflexivity|]. split; [apply loop_keeps_refl|].
      symmetry; apply app_nil_r. }
    unfold bind at 1, gets. simpl.
    destruct (existsb _ (_clear_this_frame st)).
    { eexists _, _. split; [reflexivity|]. simpl. split.
      - unfold loop_keeps; simpl. repeat split. eexists; reflexivity.
      - symmetry; apply app_nil_r. }
    destruct (existsb _ loc.1).
    { eexists _, _. split; [reflexivity|]. simpl. split.
      - unfold loop_keeps; simpl. repeat split. eexists; reflexivity.
      - symmetry; apply app_nil_r. }
    exists loc, st. split; [reflexivity|]. split; [apply loop_keeps_refl|].
    symmetry; apply app_nil_r.
  - destruct Hd as [Hd|Hd]; [congruence|].
    rewrite (draw_blit_dynamic_inside loc b st Hst Hd).
    eexists _, _. split; [reflexivity|]. simpl. split; [|reflexivity].
    unfold loop_keeps; simpl. repeat split. eexists; reflexivity.
Qed.

(** The whole loop over drawable records: [clear_next] collects the
    rectangles of the dynamic ones, in the order they are drawn. *)
Lemma draw_loop_drawable (l : list _Blit) :
  forall (loc : list Rect * nat) (st : RootState),
    Forall (drawable (_surface st)) l ->
    exists loc' st',
      for_each (draw_blit vernum (mkRect 0 0 (_surface st).1 (_surface st).2))
        l loc st = (Return loc', st') /\
      loop_keeps st st' /\
      _clear_next_frame st'
      = _clear_next_frame st
        ++ map (shown_rect (_surface st)) (List.filter is_dynamic l).
Proof.
  induction l as [|b l IH]; intros loc st Hall.
  - exists loc, st. split; [reflexivity|]. split; [apply loop_keeps_refl|].
    symmetry; apply app_nil_r.
  - inversion Hall as [|? ? Hb Hl]; subst.
    destruct (draw_blit_drawable loc b st Hb) as (loc1 & st1 & E1 & K1 & N1).
    assert (Hsz : _surface st1 = _surface st) by apply K1.
    rewrite <- Hsz in Hl.
    destruct (IH loc1 st1 Hl) as (loc2 & st2 & E2 & K2 & N2).
    exists loc2, st2. split; [|split].
    + simpl. unfold bind. rewrite E1. rewrite <- Hsz. exact E2.
    + eapply loop_keeps_trans; eassumption.
    + rewrite N2, N1, Hsz. simpl. unfold is_dynamic at 2.
      destruct (static b); simpl; rewrite <- app_assoc; reflexivity.
Qed.

(** The restore phase puts the background back over every rectangle of
    the list, in order. *)
Lemma restore_loop (l : list Rect) :
  forall st : RootState,
    surface_ok (_background st) ->
    for_each restore_rect l tt st
    = (Return tt,
       set_screen (screen st ++ map (restore_op (_background st)) l) st).
Proof.
  induction l as [|i l IH]; intros st Hok.
  - simpl. unfold ret. rewrite app_nil_r. destruct st; reflexivity.
  - simpl. unfold bind at 1. unfold restore_rect at 1.
    unfold bind at 1, gets at 1.
    unfold bind at 1. rewrite (subsurface_clip_background _ i st Hok).
    unfold bind at 1. unfold screen_blit, bind, gets, modify, ret. simpl.
    rewrite IH by exact Hok. simpl.
    unfold set_screen; simpl. rewrite <- app_assoc. reflexivity.
Qed.

(** ** Sorting by layer *)

Lemma insert_by_layer_perm (b : _Blit) (l : list _Blit) :
  Permutation (insert_by_layer b l) (b :: l).
Proof.
  induction l as [|c l IH]; simpl; [reflexivity|].
  destruct (layer b <=? layer c); [reflexivity|].
  rewrite IH. apply perm_swap.
Qed.

Lemma sort_by_layer_perm (l : list _Blit) : Permutation (sort_by_layer l) l.
Proof.
  induction l as [|b l IH]; simpl; [reflexivity|].
  rewrite insert_by_layer_perm. apply perm_skip, IH.
Qed.

Lemma filter_perm {A} (f : A -> bool) (l l' : list A) :
  Permutation l l' -> Permutation (List.filter f l) (List.filter f l').
Proof.
  induction 1 as [|x l l' _ IH|x y l|l l' l'' _ IH1 _ IH2]; simpl.
  - reflexivity.
  - destruct (f x); [apply perm_skip|]; exact IH.
  - destruct (f x), (f y); try reflexivity. apply perm_swap.
  - etransitivity; eassumption.
Qed.

Lemma filter_dynamic_statics (l : list _Blit) :
  Forall (fun b => static b = true) l -> List.filter is_dynamic l = [].
Proof.
  induction 1 as [|b l Hb _ IH]; simpl; [reflexivity|].
  unfold is_dynamic at 1. rewrite Hb. exact IH.
Qed.

Lemma statics_values (st : RootState) :
  statics_are_static st ->
  Forall (fun b => static b = true) (map_to_list (_static_blits st)).*2.
Proof.
  unfold statics_are_static. intros Hall.
  apply Forall_fmap. apply map_Forall_to_list in Hall.
  eapply Forall_impl; [exact Hall|]. intros [k b]. simpl. auto.
Qed.

(** ** One whole draw pass *)

(** A pass over a store whose records are all drawable returns; the
    rectangles of the dynamic records end up in [_clear_this_frame] (they
    went to [clear_next], which the pass then rotates), [_clear_next_frame]
    and [_blits] are empty, and the screen first gets the background put
    back over every rectangle of [_clear_this_frame] and [_soft_clear]. *)
Lemma draw_pass (root : Camera (F := F)) (st : RootState) :
  _root root = true ->
  surface_ok (_background st) ->
  Forall (drawable (_surface st))
    (_blits st ++ (map_to_list (_static_blits st)).*2) ->
  exists st' ops,
    _draw vernum root st = (Return tt, st') /\
    _clear_this_frame st'
    = _clear_next_frame st
      ++ map (shown_rect (_surface st))
           (List.filter is_dynamic
              (sort_by_layer (_blits st ++ (map_to_list (_static_blits st)).*2))) /\
    _clear_next_frame st' = [] /\ _blits st' = [] /\
    _surface st' = _surface st /\ _background st' = _background st /\
    _static_blits st' = _static_blits st /\
    screen st'
    = screen st
      ++ map (restore_op (_background st)) (_clear_this_frame st ++ _soft_clear st)
      ++ ops.
Proof.
  intros Hroot Hbg Hall.
  pose (stA := set_screen
                 (screen st ++ map (restore_op (_background st))
                                 (_clear_this_frame st ++ _soft_clear st)) st).
  pose (stB := set_soft_clear [] stA).
  pose (blits := sort_by_layer (_blits st ++ (map_to_list (_static_blits st)).*2)).
  assert (HallB : Forall (drawable (_surface stB)) blits).
  { subst blits. simpl. eapply Permutation_Forall; [|exact Hall].
    symmetry. apply sort_by_layer_perm. }
  destruct (draw_loop_drawable blits (_soft_clear st, 0%nat) stB HallB)
    as (loc & stC & EC & KC & NC).
  destruct KC as (K1 & K2 & K3 & K4 & K5 & K6 & ops & K7).
  eexists _, _. split.
  - unfold _draw. rewrite Hroot. cbn [negb].
    unfold bind, gets, modify, screen_op. cbv beta.
    rewrite (restore_loop _ st Hbg). cbv beta iota.
    fold stA. fold stB.
    change (sort_by_layer (_blits stA ++ (map_to_list (_static_blits stA)).*2))
      with blits.
    rewrite EC. unfold bind, gets, modify. reflexivity.
  - simpl. rewrite NC, K1, K2, K4, K7. simpl.
    repeat split; try reflexivity.
    rewrite <- !app_assoc. reflexivity.
Qed.

Lemma blit_area_whole (display_size : Size) (s : Surface) (dest : Rect) :
  rwidth dest = (get_size s).1 -> rheight dest = (get_size s).2 ->
  0 < rwidth dest -> 0 < rheight dest ->
  contains (mkRect 0 0 display_size.1 display_size.2) dest = true ->
  blit_area display_size s dest None = dest.
Proof.
  intros Hw Hh Hpw Hph Hin. unfold contains, rright, rbottom in Hin.
  simpl in Hin. bool_to_Z.
  unfold blit_area, blit_axis, get_rect. simpl. rewrite <- Hw, <- Hh.
  replace (rwidth dest - 0 <? rwidth dest) with false
    by (symmetry; apply Z.ltb_ge; lia).
  replace (rheight dest - 0 <? rheight dest) with false
    by (symmetry; apply Z.ltb_ge; lia).
  replace (0 <? 0 - rleft dest) with false by (symmetry; apply Z.ltb_ge; lia).
  replace (0 <? 0 - rtop dest) with false by (symmetry; apply Z.ltb_ge; lia).
  replace (0 <? rleft dest + rwidth dest - display_size.1) with false
    by (symmetry; apply Z.ltb_ge; lia).
  replace (0 <? rtop dest + rheight dest - display_size.2) with false
    by (symmetry; apply Z.ltb_ge; lia).
  replace (0 <? rwidth dest) with true by (symmetry; apply Z.ltb_lt; lia).
  replace (0 <? rheight dest) with true by (symmetry; apply Z.ltb_lt; lia).
  destruct dest; reflexivity.
Qed.

(** C3, as the code has it.  Start from a store with no pending blits.
    One [_blit] whose scaled rectangle [r] lies inside the camera's
    rectangle and, moved by the clipping offset, inside the screen, is
    followed by a draw pass.  Both return.  After the pass the rectangle
    the display reported for the blit is the last entry of
    [_clear_this_frame] (the pass moved [clear_next] there), while
    [_clear_next_frame] and [_blits] are empty; without a source region
    and with a non-empty surface that rectangle is [r] moved by the
    offset.  A second pass with nothing new returns as well, puts the
    background back over that rectangle (clipped to the background), and
    leaves [_clear_this_frame] and [_clear_next_frame] both empty. *)
Theorem dynamic_blit_draw_cycle
    (root self : Camera (F := F)) (surface : Surface) (position : Vec)
    (layer flags : Z) (offset : Z * Z) (region : option Rect)
    (bounds : Rect) (st0 : RootState) :
  _root root = true ->
  _rect self = Some bounds ->
  _rs self = Some TheRoot ->
  _blits st0 = [] ->
  statics_are_static st0 ->
  surface_ok (_background st0) ->
  contains bounds (dest_rect self surface position) = true ->
  contains (mkRect 0 0 (_surface st0).1 (_surface st0).2)
    (move (dest_rect self surface position) offset) = true ->
  let r := dest_rect self surface position in
  let shown := blit_area (_surface st0) (_scale_fn surface (_scale self))
                 (move r offset) region in
  let background := _background st0 in
  exists st1 st2 st3 ops,
    _blit self surface position layer flags (offset, region) st0
    = (Return tt, st1) /\
    _draw vernum root st1 = (Return tt, st2) /\
    _clear_this_frame st2 = _clear_next_frame st0 ++ [shown] /\
    _clear_next_frame st2 = [] /\
    _blits st2 = [] /\
    (region = None -> 0 < rwidth r -> 0 < rheight r -> shown = move r offset) /\
    _draw vernum root st2 = (Return tt, st3) /\
    screen st3 = screen st2 ++ ops /\
    In (restore_op background shown) ops /\
    _clear_this_frame st3 = [] /\
    _clear_next_frame st3 = [].
Proof.
  intros Hroot Hrect Hrs Hblits Hstat Hbg Hin Hscreen r shown background.
  set (B := mk_Blit (_scale_fn surface (_scale self)) r layer flags false
              (offset, region)).
  set (st1 := set_blits [B] st0).
  assert (E1 : _blit self surface position layer flags (offset, region) st0
               = (Return tt, st1)).
  { unfold _blit. rewrite Hrect, Hrs. run.
    fold (dest_rect self surface position). rewrite Hin.
    unfold append_blits. run. rewrite Hblits. reflexivity. }
  pose proof (statics_values st0 Hstat) as Hvals.
  assert (Hdraw1 : Forall (drawable (_surface st1))
                     (_blits st1 ++ (map_to_list (_static_blits st1)).*2)).
  { simpl. constructor.
    - right. exact Hscreen.
    - eapply Forall_impl; [exact Hvals|]. intros b Hb. left. exact Hb. }
  destruct (draw_pass root st1 Hroot Hbg Hdraw1)
    as (st2 & ops1 & E2 & T2 & N2 & B2 & S2 & G2 & M2 & _).
  assert (Hdyn : List.filter is_dynamic
                   (sort_by_layer
                      (_blits st1 ++ (map_to_list (_static_blits st1)).*2))
                 = [B]).
  { apply Permutation_length_1_inv. symmetry.
    etransitivity; [apply filter_perm, sort_by_layer_perm|].
    simpl. rewrite (filter_dynamic_statics _ Hvals). reflexivity. }
  rewrite Hdyn in T2. simpl in T2.
  assert (Hbg2 : surface_ok (_background st2)) by (rewrite G2; exact Hbg).
  assert (Hdraw2 : Forall (drawable (_surface st2))
                     (_blits st2 ++ (map_to_list (_static_blits st2)).*2)).
  { rewrite B2, M2. simpl.
    eapply Forall_impl; [exact Hvals|]. intros b Hb. left. exact Hb. }
  destruct (draw_pass root st2 Hroot Hbg2 Hdraw2)
    as (st3 & ops2 & E3 & T3 & N3 & _ & _ & _ & _ & Sc3).
  assert (Hdyn2 : List.filter is_dynamic
                    (sort_by_layer
                       (_blits st2 ++ (map_to_list (_static_blits st2)).*2))
                  = []).
  { apply Permutation_nil. symmetry.
    etransitivity; [apply filter_perm, sort_by_layer_perm|].
    rewrite B2, M2. simpl. rewrite (filter_dynamic_statics _ Hvals).
    reflexivity. }
  rewrite Hdyn2, N2 in T3. simpl in T3.
  exists st1, st2, st3, (map (restore_op (_background st2))
                           (_clear_this_frame st2 ++ _soft_clear st2) ++ ops2).
  repeat split; try assumption.
  - intros -> Hw Hh. unfold shown.
    apply blit_area_whole; try assumption; reflexivity.
  - apply in_or_app. left. rewrite G2. apply in_map.
    rewrite T2. apply in_or_app. left. apply in_or_app. right. left.
    reflexivity.
Qed.

(** ** The static-blit dictionary only holds static records *)

Lemma statics_are_static_fresh (rsize : Size) :
  statics_are_static (root_state display rsize).
Proof.
  unfold statics_are_static. simpl. apply map_Forall_empty.
Qed.

(** [_static_blit] keeps that, whether it returns or raises. *)
Lemma static_blit_keeps_statics
    (self : Camera (F := F)) (sprite : nat) (surface : Surface)
    (position : Vec) (layer flags : Z) (clipping : Clipping)
    (st : RootState) :
  statics_are_static st ->
  statics_are_static
    (_static_blit self sprite surface position layer flags clipping st).2.
Proof.
  intros Hinv. unfold _static_blit.
  destruct (_rs self); [|exact Hinv]. run.
  destruct (_static_blits st !! sprite); [exact Hinv|]. run.
  destruct (_rect self) as [bounds|]; [|exact Hinv]. run.
  destruct (contains bounds _).
  { unfold statics_are_static; simpl.
    apply map_Forall_insert_2; [reflexivity|exact Hinv]. }
  destruct (colliderect bounds _); [|exact Hinv].
  unfold subsurface, raise, ret.
  destruct (_ || _); [exact Hinv|].
  unfold statics_are_static; simpl.
  apply map_Forall_insert_2; [reflexivity|exact Hinv].
Qed.

(** ** Scale factors *)

(** What [Camera.__init__] leaves in [_scale] is the real size over the
    virtual size, and the new camera has no parent. *)
Lemma init_scale (virtual_size real_size : option Size) (root : bool)
    (c : Camera (F := F)) (st : option RootState) :
  Camera_init display virtual_size real_size root = Return (c, st) ->
  (_rsize c).1 <> 0 -> (_rsize c).2 <> 0 ->
  _scale c = size_ratio c /\ _parent c = None.
Proof.
  unfold Camera_init. intros Hinit.
  destruct (if root then _ else _) as [rsize|e] eqn:Hr;
    [|discriminate]. simpl in Hinit.
  assert (Hcases :
    forall vs : Size * Vec,
      (if root
       then Return (mkCamera rsize vs.1 vs.2 true
                      (Some (mkRect 0 0 display.1 display.2))
                      (Some TheRoot) None, Some (root_state display rsize))
       else Return (mkCamera rsize vs.1 vs.2 false None None None, None))
      = Return (c, st) ->
      _rsize c = rsize /\ _vsize c = vs.1 /\ _scale c = vs.2 /\
      _parent c = None).
  { intros vs E. destruct root; inversion E; subst; simpl; auto. }
  assert (Hunit : forall vs : Size * Vec,
             vs = (rsize, (fone, fone)) ->
             (if root
              then Return (mkCamera rsize vs.1 vs.2 true
                             (Some (mkRect 0 0 display.1 display.2))
                             (Some TheRoot) None,
                           Some (root_state display rsize))
              else Return (mkCamera rsize vs.1 vs.2 false None None None, None))
             = Return (c, st) ->
             (_rsize c).1 <> 0 -> (_rsize c).2 <> 0 ->
             _scale c = size_ratio c /\ _parent c = None).
  { intros vs -> E H1 H2. apply Hcases in E.
    destruct E as (Er & Ev & Es & Ep). simpl in Ev, Es.
    split; [|exact Ep]. unfold size_ratio. rewrite Es, Ev.
    rewrite Er in H1, H2. rewrite Er.
    rewrite !truediv_diag by assumption. reflexivity. }
  destruct virtual_size as [v|]; [|eapply Hunit; [reflexivity|exact Hinit]].
  destruct (size_eqb v (0, 0)); [eapply Hunit; [reflexivity|exact Hinit]|].
  unfold py_truediv in Hinit.
  destruct (v.1 =? 0); [discriminate|]. simpl in Hinit.
  destruct (v.2 =? 0); [discriminate|]. simpl in Hinit.
  apply (Hcases (v, (truediv rsize.1 v.1, truediv rsize.2 v.2))) in Hinit.
  destruct Hinit as (Er & Ev & Es & Ep).
  simpl in Ev, Es. intros _ _. split; [|exact Ep].
  unfold size_ratio. rewrite Es, Ev, Er. reflexivity.
Qed.

(** What [make_child] stores in the child: the sizes [Camera.__init__]
    chose, the parent, and the parent's factor times the child's own. *)
Lemma make_child_fields (p c : Camera (F := F))
    (virtual_size real_size : option Size) :
  make_child display p virtual_size real_size = Return c ->
  (_rsize c).1 <> 0 -> (_rsize c).2 <> 0 ->
  _parent c = Some p /\ _scale c = Vec2D_mul (_scale p) (size_ratio c).
Proof.
  unfold make_child. intros Hmk H1 H2.
  destruct (Camera_init display virtual_size _ false) as [[y st]|e] eqn:Hy;
    [|discriminate]. simpl in Hmk.
  destruct (_rs p); [|discriminate]. simpl in Hmk.
  inversion Hmk; subst c; clear Hmk. simpl in *.
  destruct (init_scale _ _ _ _ _ Hy H1 H2) as [Hs _].
  split; [reflexivity|]. rewrite Hs. reflexivity.
Qed.

(** C5, as the code has it.  For every camera made the documented way
    whose real sizes are not zero, [_scale] is the product of real size
    over virtual size taken over the camera and all its ancestors.  For
    a root that is its own real size over its virtual size; for a child
    it is the parent's [_scale] times the child's real size over its
    virtual size. *)
Theorem scale_is_cumulative (c : Camera (F := F)) :
  made display c ->
  real_sizes_nonzero c ->
  _scale c = cumulative_scale c /\
  match _parent c with
  | None => _scale c = size_ratio c
  | Some p => _scale c = Vec2D_mul (_scale p) (size_ratio c)
  end.
Proof.
  induction 1 as [virtual_size real_size c st Hinit
                 |p virtual_size real_size c Hp IH Hmk];
    intros Hnz.
  - destruct c as [rs vs sc rt rc r par]; simpl in Hnz.
    destruct Hnz as (H1 & H2 & _).
    destruct (init_scale _ _ _ _ _ Hinit H1 H2) as [Hs Hpar].
    simpl in Hpar. subst par. simpl. simpl in Hs. auto.
  - destruct c as [rs vs sc rt rc r par]; simpl in Hnz.
    destruct Hnz as (H1 & H2 & Hrest).
    destruct (make_child_fields _ _ _ _ Hmk H1 H2) as [Hpar Hs].
    simpl in Hpar. subst par. simpl in *.
    destruct (IH Hrest) as [IHs _]. rewrite <- IHs. auto.
Qed.

End Properties.

(** * The model at work on the 100 x 100 display *)

(** ** Static blits for a sprite that already has one *)

(** C1.  The sprite image is blitted statically at (0, 0) and then again
    at (20, 20), both inside the camera.  The first call stores its
    record and schedules its rectangle; the second call raises
    [TypeError] at [rs._static_blits[sprite][1]] and changes nothing: the
    dictionary still holds the first record, and the union of the two
    rectangles was never scheduled. *)
Theorem static_blit_twice_raises :
  let first := mk_Blit Demo.sprite_image (mkRect 0 0 10 10) 0 0 true
                 Demo.no_clipping in
  let st1 := set_clear_this_frame [mkRect 0 0 10 10]
               (set_static_blits {[ 1%nat := first ]} Demo.fresh) in
  _static_blit Demo.root 1%nat Demo.sprite_image (0%Q, 0%Q) 0 0
    Demo.no_clipping Demo.fresh = (Return tt, st1) /\
  contains (mkRect 0 0 100 100)
    (dest_rect Demo.root Demo.sprite_image (20%Q, 20%Q)) = true /\
  _static_blit Demo.root 1%nat Demo.sprite_image (20%Q, 20%Q) 0 0
    Demo.no_clipping st1
  = (Raise (TypeError "'_Blit' object does not support indexing"), st1) /\
  _static_blits st1 !! 1%nat = Some first /\
  ~ In (union_rect (mkRect 0 0 10 10) (mkRect 20 20 10 10))
       (_clear_this_frame st1).
Proof.
  intros first st1. split; [vm_compute; reflexivity|].
  split; [vm_compute; reflexivity|].
  split; [vm_compute; reflexivity|].
  split; [vm_compute; reflexivity|].
  simpl. intros [E|[]]. discriminate E.
Qed.

(** C10.  With a record for the sprite already stored, a static blit
    far outside the camera does not return: it raises [TypeError] at the
    same subscript.  The store is left as it was. *)
Theorem static_blit_outside_again_raises :
  let first := mk_Blit Demo.sprite_image (mkRect 0 0 10 10) 0 0 true
                 Demo.no_clipping in
  let st1 := set_clear_this_frame [mkRect 0 0 10 10]
               (set_static_blits {[ 1%nat := first ]} Demo.fresh) in
  colliderect (mkRect 0 0 100 100)
    (dest_rect Demo.root Demo.sprite_image (200%Q, 200%Q)) = false /\
  _static_blit Demo.root 1%nat Demo.sprite_image (200%Q, 200%Q) 0 0
    Demo.no_clipping st1
  = (Raise (TypeError "'_Blit' object does not support indexing"), st1).
Proof.
  intros first st1. split; vm_compute; reflexivity.
Qed.

(** ** A dynamic record that leaves the screen *)

(** C2.  A 10 x 10 image is blitted at (5, 5) with a clipping offset of
    (92, 0), so that on the screen it spans x = 97 .. 107 and only partly
    overlaps the display.  The draw pass raises [AttributeError] at
    [blit.surf]: the record is not drawn, nothing reaches
    [_clear_next_frame], and the pending blit is still there. *)
Theorem draw_partial_dynamic_raises :
  let clipping : Clipping := ((92, 0), None) in
  let record := mk_Blit Demo.sprite_image (mkRect 5 5 10 10) 0 0 false
                  clipping in
  let st1 := set_blits [record] Demo.fresh in
  _blit Demo.root Demo.sprite_image (5%Q, 5%Q) 0 0 clipping Demo.fresh
  = (Return tt, st1) /\
  contains (mkRect 0 0 100 100) (on_screen_rect record) = false /\
  colliderect (mkRect 0 0 100 100) (on_screen_rect record) = true /\
  _draw Demo.vernum Demo.root st1 = (Raise (AttributeError "surf"), st1).
Proof.
  intros clipping record st1. repeat split; vm_compute; reflexivity.
Qed.

(** ** One dynamic blit and two passes *)

(** C3 as stated fails: after the pass that draws the blit,
    [_clear_next_frame] is empty; the rectangle sits in
    [_clear_this_frame]. *)
Lemma clear_next_empty_after_pass :
  exists st1 st2,
    _blit Demo.root Demo.sprite_image (5%Q, 5%Q) 0 0 Demo.no_clipping
      Demo.fresh = (Return tt, st1) /\
    _draw Demo.vernum Demo.root st1 = (Return tt, st2) /\
    _blits st2 = [] /\
    ~ In (mkRect 5 5 10 10) (_clear_next_frame st2) /\
    _clear_this_frame st2 = [mkRect 5 5 10 10].
Proof.
  eexists _, _. split; [vm_compute; reflexivity|].
  split; [vm_compute; reflexivity|].
  split; [reflexivity|]. split; [|reflexivity].
  simpl. intros [].
Qed.

Lemma dynamic_blit_draw_cycle_witness :
  let r := mkRect 5 5 10 10 in
  exists st1 st2 st3 ops,
    _blit Demo.root Demo.sprite_image (5%Q, 5%Q) 0 0 Demo.no_clipping
      Demo.fresh = (Return tt, st1) /\
    _draw Demo.vernum Demo.root st1 = (Return tt, st2) /\
    _clear_this_frame st2 = [r] /\
    _clear_next_frame st2 = [] /\
    _blits st2 = [] /\
    (@None Rect = None -> 0 < 10 -> 0 < 10 -> r = r) /\
    _draw Demo.vernum Demo.root st2 = (Return tt, st3) /\
    screen st3 = screen st2 ++ ops /\
    In (restore_op (Filled (100, 100) (255, 255, 255)) r) ops /\
    _clear_this_frame st3 = [] /\
    _clear_next_frame st3 = [].
Proof.
  intros r.
  refine (dynamic_blit_draw_cycle Demo.vernum Demo.root Demo.root
            Demo.sprite_image (5%Q, 5%Q) 0 0 (0, 0) None
            (mkRect 0 0 100 100) Demo.fresh _ _ _ _ _ _ _ _).
  - reflexivity.
  - reflexivity.
  - reflexivity.
  - reflexivity.
  - intros k b Hk. vm_compute in Hk. discriminate Hk.
  - split; simpl; lia.
  - vm_compute; reflexivity.
  - vm_compute; reflexivity.
Defined.

(** ** A static record redrawn through the soft-clear list *)

(** C4 as stated fails.  A sprite is blitted statically and two passes
    run.  In the second pass its record collides with nothing in
    [_clear_this_frame] but with the rectangle the first pass left in
    [_soft_clear], and it is drawn; yet after the pass the new
    [_soft_clear] is empty. *)
Lemma soft_clear_not_refilled :
  let record := mk_Blit Demo.sprite_image (mkRect 0 0 10 10) 0 0 true
                  Demo.no_clipping in
  let st1 := Demo.after (_draw Demo.vernum Demo.root)
               (Demo.after
                  (_static_blit Demo.root 1%nat Demo.sprite_image (0%Q, 0%Q)
                     0 0 Demo.no_clipping) Demo.fresh) in
  _static_blits st1 !! 1%nat = Some record /\
  existsb (colliderect (on_screen_rect record)) (_clear_this_frame st1) = false /\
  existsb (colliderect (on_screen_rect record)) (_soft_clear st1) = true /\
  exists st2 before,
    _draw Demo.vernum Demo.root st1 = (Return tt, st2) /\
    screen st2
    = screen st1 ++ before ++ [draw_op false record; SetCaption 1 1 0;
                               DisplayUpdate []] /\
    ~ In (on_screen_rect record) (_soft_clear st2).
Proof.
  intros record st1.
  split; [vm_compute; reflexivity|].
  split; [vm_compute; reflexivity|].
  split; [vm_compute; reflexivity|].
  eexists _, [_]. split; [vm_compute; reflexivity|].
  split; [vm_compute; reflexivity|].
  simpl. intros [].
Qed.

Lemma static_soft_clear_redraw_witness :
  let record := mk_Blit Demo.sprite_image (mkRect 0 0 10 10) 0 0 true
                  Demo.no_clipping in
  let st := set_soft_clear [] (set_static_blits {[ 1%nat := record ]} Demo.fresh) in
  exists appended : Rect,
    draw_blit Demo.vernum (mkRect 0 0 100 100) ([mkRect 0 0 10 10], 0%nat)
      record st
    = (Return ([mkRect 0 0 10 10; appended], 1%nat),
       set_screen (screen st ++ [draw_op false record]) st) /\
    appended = mkRect 0 0 10 10 /\
    _soft_clear
      (draw_blit Demo.vernum (mkRect 0 0 100 100) ([mkRect 0 0 10 10], 0%nat)
         record st).2 = [].
Proof.
  intros record st.
  destruct (static_soft_clear_redraw Demo.vernum (mkRect 0 0 100 100)
              [mkRect 0 0 10 10] 0%nat record st)
    as (appended & E & Hzero & Hnew).
  - reflexivity.
  - vm_compute; reflexivity.
  - vm_compute; reflexivity.
  - vm_compute; reflexivity.
  - exists appended. split; [exact E|]. split; [|exact Hnew].
    rewrite (Hzero eq_refl). vm_compute. reflexivity.
Defined.

(** ** Nested cameras *)

(** C5 as stated fails.  On a 200 x 200 display the root has virtual
    size 100 x 100, hence factor 2; its child with real size 100 x 100
    and virtual size 50 x 50 has real over virtual size 2 as well, but 4
    in [_scale]. *)
Lemma child_scale_is_not_its_size_ratio :
  exists (rootcam c : Camera (F := Q)) st,
    Camera_init (200, 200) (Some (100, 100)) None true = Return (rootcam, st) /\
    make_child (200, 200) rootcam (Some (50, 50)) (Some (100, 100)) = Return c /\
    made (200, 200) c /\
    size_ratio c = (2%Q, 2%Q) /\
    _scale c = (4%Q, 4%Q) /\
    _scale c <> size_ratio c.
Proof.
  eexists _, _, _. split; [vm_compute; reflexivity|].
  split; [vm_compute; reflexivity|].
  split.
  { eapply (made_child (200, 200) _ (Some (50, 50)) (Some (100, 100)));
      [eapply (made_root (200, 200) (Some (100, 100)) None)|];
      vm_compute; reflexivity. }
  split; [vm_compute; reflexivity|].
  split; [vm_compute; reflexivity|].
  vm_compute. intros E. discriminate E.
Qed.

Lemma scale_is_cumulative_witness :
  made (200, 200) Demo.child /\
  real_sizes_nonzero Demo.child /\
  _scale Demo.child = cumulative_scale Demo.child /\
  _scale Demo.child = Vec2D_mul (_scale Demo.wide_root) (size_ratio Demo.child).
Proof.
  assert (Hmade : made (200, 200) Demo.child).
  { apply (made_child (200, 200) Demo.wide_root (Some (50, 50))
             (Some (100, 100))); [|vm_compute; reflexivity].
    apply (made_root (200, 200) (Some (100, 100)) None Demo.wide_root
             (Some (root_state (200, 200) (200, 200)))).
    vm_compute; reflexivity. }
  assert (Hnz : real_sizes_nonzero Demo.child).
  { simpl. repeat split; lia. }
  split; [exact Hmade|]. split; [exact Hnz|].
  exact (scale_is_cumulative (200, 200) Demo.child Hmade Hnz).
Defined.

(** ** Construction, backgrounds and dropped blits, run *)

Lemma init_needs_real_size_witness :
  Camera_init (F := Q) Demo.display (Some (50, 50)) None false
  = Raise (ValueError "Must specify a real_size.") /\
  Camera_init (F := Q) Demo.display (Some (50, 50)) (Some (100, 100)) false
  <> Raise (ValueError "Must specify a real_size.").
Proof.
  destruct (init_needs_real_size (F := Q) Demo.display) as [Hnone Hsome].
  split; [apply Hnone | apply Hsome].
Defined.

Lemma set_background_size_mismatch_witness :
  get_size Demo.sprite_image <> _vsize Demo.loose /\
  set_background Demo.loose Demo.sprite_image 1%nat 1%nat Demo.fresh
  = (Raise (ValueError "Background size must match the display size."),
     Demo.fresh).
Proof.
  assert (Hne : get_size Demo.sprite_image <> _vsize Demo.loose)
    by (simpl; intros E; discriminate E).
  split; [exact Hne|].
  exact (set_background_size_mismatch Demo.loose Demo.sprite_image
           1%nat 1%nat Demo.fresh Hne).
Defined.

Lemma set_background_root_unchanged_witness :
  _root Demo.root = true /\
  get_size (Image 3 (100, 100)) = _vsize Demo.root /\
  set_background Demo.root (Image 3 (100, 100)) 1%nat 1%nat Demo.fresh
  = (Return tt, Demo.fresh).
Proof.
  split; [reflexivity|]. split; [reflexivity|].
  exact (set_background_root_unchanged Demo.root (Image 3 (100, 100))
           1%nat 1%nat Demo.fresh eq_refl eq_refl).
Defined.

Lemma blit_outside_dropped_witness :
  _rect Demo.root = Some (mkRect 0 0 100 100) /\
  colliderect (mkRect 0 0 100 100)
    (dest_rect Demo.root Demo.sprite_image (200%Q, 200%Q)) = false /\
  _blit Demo.root Demo.sprite_image (200%Q, 200%Q) 0 0 Demo.no_clipping
    Demo.fresh = (Return tt, Demo.fresh).
Proof.
  split; [reflexivity|]. split; [vm_compute; reflexivity|].
  refine (blit_outside_dropped Demo.root Demo.sprite_image (200%Q, 200%Q)
            0 0 Demo.no_clipping (mkRect 0 0 100 100) Demo.fresh _ _).
  - reflexivity.
  - vm_compute; reflexivity.
Defined.

(** * Further properties of the camera code *)

Section Dictionary.

Context {F : Type} `{Scalar F}.

Ltac step := unfold bind, lift, getattr, gets, modify, ret, raise; simpl.

(** A camera that can reach the compositor: the root itself, or a
    camera holding a reference to it. *)
Lemma remove_static_blit_reaches (self : Camera (F := F)) (st : RootState) :
  _root self = true \/ _rs self = Some TheRoot ->
  (if negb (_root self) then lift (getattr "_rs" (_rs self)) else ret TheRoot) st
  = (Return TheRoot, st).
Proof.
  intros [Hr|Hr].
  - rewrite Hr. reflexivity.
  - destruct (_root self); [reflexivity|]. rewrite Hr. reflexivity.
Qed.

(** X1.  [_remove_static_blit] for a sprite without an entry returns
    and leaves the store as it was, on the root and through a child. *)
Theorem remove_static_blit_absent
    (self : Camera (F := F)) (sprite : nat) (st : RootState) :
  _root self = true \/ _rs self = Some TheRoot ->
  _static_blits st !! sprite = None ->
  _remove_static_blit self sprite st = (Return tt, st).
Proof.
  intros Hreach Hnone. unfold _remove_static_blit.
  unfold bind at 1. rewrite (remove_static_blit_reaches self st Hreach).
  step. rewrite Hnone. reflexivity.
Qed.

(** X2.  [_remove_static_blit] for a sprite with an entry returns,
    drops that entry and no other, and appends the rectangle of the
    dropped record to [_clear_this_frame]; pending blits, background and
    screen are left alone. *)
Theorem remove_static_blit_present
    (self : Camera (F := F)) (sprite : nat) (x : _Blit) (st : RootState) :
  _root self = true \/ _rs self = Some TheRoot ->
  _static_blits st !! sprite = Some x ->
  exists st',
    _remove_static_blit self sprite st = (Return tt, st') /\
    _static_blits st' !! sprite = None /\
    (forall other : nat, other <> sprite ->
       _static_blits st' !! other = _static_blits st !! other) /\
    _clear_this_frame st' = _clear_this_frame st ++ [rect x] /\
    _blits st' = _blits st /\
    _background st' = _background st /\
    screen st' = screen st.
Proof.
  intros Hreach Hsome. eexists. split.
  - unfold _remove_static_blit.
    unfold bind at 1. rewrite (remove_static_blit_reaches self st Hreach).
    step. rewrite Hsome. unfold append_clear_this_frame. step. reflexivity.
  - simpl. split; [apply lookup_delete_eq|].
    split; [|repeat split].
    intros other Hne. apply lookup_delete_ne. congruence.
Qed.

(** X3.  A first static blit inside the camera followed by its removal
    brings the dictionary back to what it was; the rectangle has been
    scheduled twice, once to draw the sprite and once to erase it. *)
Theorem static_blit_then_remove
    (self : Camera (F := F)) (sprite : nat) (surface : Surface)
    (position : Vec) (layer flags : Z) (clipping : Clipping)
    (bounds : Rect) (st : RootState) :
  _rs self = Some TheRoot ->
  _rect self = Some bounds ->
  _static_blits st !! sprite = None ->
  contains bounds (dest_rect self surface position) = true ->
  exists st1 st2,
    _static_blit self sprite surface position layer flags clipping st
    = (Return tt, st1) /\
    _remove_static_blit self sprite st1 = (Return tt, st2) /\
    _static_blits st2 = _static_blits st /\
    _clear_this_frame st2
    = _clear_this_frame st
      ++ [dest_rect self surface position; dest_rect self surface position].
Proof.
  intros Hrs Hrect Hnone Hin. eexists _, _. split.
  - apply (static_blit_fresh_inside self sprite surface position layer flags
             clipping bounds TheRoot st Hrs Hrect Hnone Hin).
  - split.
    + unfold _remove_static_blit.
      unfold bind at 1.
      rewrite (remove_static_blit_reaches self _ (or_intror Hrs)).
      step. rewrite lookup_insert_eq. unfold append_clear_this_frame. step.
      reflexivity.
    + simpl. split; [apply delete_insert_id, Hnone|].
      rewrite <- app_assoc. reflexivity.
Qed.

(** X4.  Leaving a scene and entering it again gives back the static
    blits and the background that were there on exit, and schedules the
    whole background for restoration; in between, the dictionary is empty
    and the background is a fresh white surface of the camera's real
    size, painted on the screen at once.  Nothing stays saved under that
    scene. *)
Theorem exit_enter_scene_round_trip
    (self : Camera (F := F)) (scene : nat) (st : RootState) :
  _root self = true ->
  exists st1 st2,
    _exit_scene self scene st = (Return tt, st1) /\
    _static_blits st1 = ∅ /\
    _background st1 = Filled (_rsize self) (255, 255, 255) /\
    screen st1
    = screen st ++ [ScreenBlitAt (Filled (_rsize self) (255, 255, 255)) (0, 0)] /\
    _enter_scene self scene st1 = (Return tt, st2) /\
    _static_blits st2 = _static_blits st /\
    _background st2 = _background st /\
    _clear_this_frame st2
    = _clear_this_frame st ++ [get_rect (_background st)] /\
    _saved_blits st2 !! scene = None /\
    _backgrounds st2 !! scene = None.
Proof.
  intros Hroot. eexists _, _. split.
  { unfold _exit_scene, root_only, screen_op. rewrite Hroot. step.
    reflexivity. }
  split; [reflexivity|]. split; [reflexivity|]. split; [reflexivity|].
  split.
  { unfold _enter_scene, root_only. rewrite Hroot. step.
    rewrite !lookup_insert_eq. unfold append_clear_this_frame. step.
    reflexivity. }
  simpl. repeat split; apply lookup_delete_eq.
Qed.

(** X5.  Entering a scene for which nothing was saved returns and
    leaves the store as it was: the current static blits stay and no
    restoration is scheduled. *)
Theorem enter_scene_never_saved
    (self : Camera (F := F)) (scene : nat) (st : RootState) :
  _root self = true ->
  _saved_blits st !! scene = None ->
  _backgrounds st !! scene = None ->
  _enter_scene self scene st = (Return tt, st).
Proof.
  intros Hroot Hsaved Hbg. unfold _enter_scene, root_only. rewrite Hroot.
  step. rewrite Hsaved, Hbg. simpl.
  rewrite (delete_id _ _ Hsaved). destruct st; reflexivity.
Qed.

End Dictionary.

(** ** Clipping against the camera *)

Lemma clip_axis_inside_other (a alen b blen x w : Z) :
  clip_axis a alen b blen = Some (x, w) -> b <= x /\ x + w <= b + blen.
Proof.
  unfold clip_axis. intros Hc.
  repeat match type of Hc with
    | context [if ?c then _ else _] => destruct c eqn:?
    end; inversion Hc; subst; bool_to_Z; lia.
Qed.

Lemma clip_axis_overlap (a alen b blen : Z) :
  0 < alen -> 0 < blen ->
  axis_overlap b blen a alen = true ->
  exists x w, clip_axis a alen b blen = Some (x, w) /\ 0 < w.
Proof.
  intros Ha Hb Hov. unfold axis_overlap in Hov. unfold clip_axis.
  apply orb_true_iff in Hov.
  destruct ((b <=? a) && (a <? b + blen)) eqn:E1.
  - bool_to_Z.
    destruct ((b <? a + alen) && (a + alen <=? b + blen)) eqn:E2.
    + eexists _, _. split; [reflexivity|]. lia.
    + destruct ((a <? b + blen) && (b + blen <=? a + alen)) eqn:E3.
      * eexists _, _. split; [reflexivity|]. lia.
      * bool_to_Z; lia.
  - destruct ((a <=? b) && (b <? a + alen)) eqn:E0.
    + bool_to_Z;
        (destruct ((b <? a + alen) && (a + alen <=? b + blen)) eqn:E2;
         [eexists _, _; split; [reflexivity|]; bool_to_Z; lia|]);
        (destruct ((a <? b + blen) && (b + blen <=? a + alen)) eqn:E3;
         [eexists _, _; split; [reflexivity|]; bool_to_Z; lia|]);
        bool_to_Z; lia.
    + exfalso. destruct Hov as [Hov|Hov]; bool_to_Z; lia.
Qed.

(** The part of a rectangle that a colliding rectangle cuts out lies
    inside both and has an area. *)
Lemma clip_colliding (r bounds : Rect) :
  positive r -> positive bounds ->
  colliderect bounds r = true ->
  inside (clip r bounds) r /\ inside (clip r bounds) bounds /\
  positive (clip r bounds).
Proof.
  intros [Hw Hh] [Hbw Hbh] Hcol. unfold colliderect in Hcol.
  apply andb_true_iff in Hcol. destruct Hcol as [Hx Hy].
  destruct (clip_axis_overlap _ _ _ _ Hw Hbw Hx) as (x & w & Ex & Hpw).
  destruct (clip_axis_overlap _ _ _ _ Hh Hbh Hy) as (y & h & Ey & Hph).
  unfold clip. rewrite Ex, Ey.
  pose proof (clip_axis_inside _ _ _ _ _ _ Ex).
  pose proof (clip_axis_inside _ _ _ _ _ _ Ey).
  pose proof (clip_axis_inside_other _ _ _ _ _ _ Ex).
  pose proof (clip_axis_inside_other _ _ _ _ _ _ Ey).
  unfold inside, positive, rright, rbottom; simpl. lia.
Qed.

Lemma contains_inside (A B : Rect) : contains A B = true -> inside B A.
Proof.
  unfold contains, inside. intros Hc. bool_to_Z. lia.
Qed.

(** The source region of a clipped blit never leaves the surface. *)
Lemma subsurface_of_clip (s : Surface) (r x : Rect) (st : RootState) :
  get_size s = (rwidth r, rheight r) ->
  inside x r ->
  subsurface s (move x (- rleft r, - rtop r)) st
  = (Return (Subsurface s (move x (- rleft r, - rtop r))), st).
Proof.
  intros Hsz (H1 & H2 & H3 & H4). unfold subsurface, rright, rbottom in *.
  rewrite Hsz. simpl.
  replace (rleft x + - rleft r <? 0) with false
    by (symmetry; apply Z.ltb_ge; lia).
  replace (rtop x + - rtop r <? 0) with false
    by (symmetry; apply Z.ltb_ge; lia).
  replace (rwidth r <? rleft x + - rleft r + rwidth x) with false
    by (symmetry; apply Z.ltb_ge; lia).
  replace (rheight r <? rtop x + - rtop r + rheight x) with false
    by (symmetry; apply Z.ltb_ge; lia).
  reflexivity.
Qed.

Section Clipping.

Context {F : Type} `{Scalar F}.

Ltac step := unfold bind, lift, getattr, gets, modify, ret, raise; simpl.

(** The rectangle a camera computes is as large as the scaled surface. *)
Lemma dest_rect_size (self : Camera (F := F)) (surface : Surface)
    (position : Vec) :
  get_size (_scale_fn surface (_scale self))
  = (rwidth (dest_rect self surface position),
     rheight (dest_rect self surface position)).
Proof.
  unfold dest_rect, Rect_at. simpl.
  destruct (get_size (_scale_fn surface (_scale self))); reflexivity.
Qed.

(** X6.  A [_blit] that overlaps the camera's rectangle only in part
    returns and appends one dynamic record: its rectangle is the
    overlap, which lies inside the camera and has an area, and its
    surface is the matching region of the scaled surface, taken relative
    to the top-left corner of the unclipped rectangle. *)
Theorem blit_partial_clipped
    (self : Camera (F := F)) (surface : Surface) (position : Vec)
    (layer flags : Z) (clipping : Clipping) (bounds : Rect) (st : RootState) :
  _rect self = Some bounds ->
  _rs self = Some TheRoot ->
  positive bounds ->
  positive (dest_rect self surface position) ->
  contains bounds (dest_rect self surface position) = false ->
  colliderect bounds (dest_rect self surface position) = true ->
  let r := dest_rect self surface position in
  let x := clip r bounds in
  _blit self surface position layer flags clipping st
  = (Return tt,
     set_blits
       (_blits st
        ++ [mk_Blit (Subsurface (_scale_fn surface (_scale self))
                       (move x (- rleft r, - rtop r)))
              x layer flags false clipping]) st) /\
  inside x bounds /\ inside x r /\ positive x.
Proof.
  intros Hrect Hrs Hpb Hpr Hnc Hcol r x.
  destruct (clip_colliding r bounds Hpr Hpb Hcol) as (Hir & Hib & Hpx).
  split; [|auto].
  unfold _blit. rewrite Hrect, Hrs. step.
  fold (dest_rect self surface position). rewrite Hnc, Hcol.
  fold r. fold x.
  change (subsurface _ (move x _) st)
    with (subsurface (_scale_fn surface (_scale self))
            (move x (- rleft r, - rtop r)) st).
  rewrite (subsurface_of_clip (_scale_fn surface (_scale self)) r x st
             (dest_rect_size self surface position) Hir).
  unfold append_blits. step. reflexivity.
Qed.

(** X7.  On a camera with a root and a rectangle of positive width
    and height, a [_blit] of a non-empty scaled surface never raises.  It either leaves the store
    as it was or appends exactly one record, and that record is dynamic,
    lies inside the camera's rectangle, has a surface exactly as large
    as its rectangle, and carries the layer, flags and clipping it was
    given. *)
Theorem blit_appends_inside
    (self : Camera (F := F)) (surface : Surface) (position : Vec)
    (layer' flags' : Z) (clipping' : Clipping) (bounds : Rect)
    (st : RootState) :
  _rect self = Some bounds ->
  _rs self = Some TheRoot ->
  positive bounds ->
  positive (dest_rect self surface position) ->
  _blit self surface position layer' flags' clipping' st = (Return tt, st) \/
  exists b,
    _blit self surface position layer' flags' clipping' st
    = (Return tt, set_blits (_blits st ++ [b]) st) /\
    static b = false /\ inside (rect b) bounds /\ fits b /\
    layer b = layer' /\ flags b = flags' /\ clipping b = clipping'.
Proof.
  intros Hrect Hrs Hpb Hpr.
  destruct (contains bounds (dest_rect self surface position)) eqn:Hin.
  - right. eexists. split.
    + unfold _blit. rewrite Hrect, Hrs. step.
      fold (dest_rect self surface position). rewrite Hin.
      unfold append_blits. step. reflexivity.
    + simpl. split; [reflexivity|].
      split; [apply (contains_inside _ _ Hin)|].
      split; [apply dest_rect_size|]. auto.
  - destruct (colliderect bounds (dest_rect self surface position)) eqn:Hcol.
    + right.
      destruct (blit_partial_clipped self surface position layer' flags'
                  clipping' bounds st Hrect Hrs Hpb Hpr Hin Hcol)
        as (E & Hib & _ & _).
      eexists. split; [exact E|]. simpl.
      split; [reflexivity|]. split; [exact Hib|].
      split; [reflexivity|]. auto.
    + left. unfold _blit. rewrite Hrect. step.
      fold (dest_rect self surface position). rewrite Hin, Hcol. reflexivity.
Qed.

(** X8.  On a camera with a root and a rectangle of positive width
    and height, a first [_static_blit] for a sprite, of a non-empty
    scaled surface, never raises.  If its rectangle misses the camera the store
    is left as it was; otherwise the sprite gets a record that is
    static, lies inside the camera's rectangle and fits its surface, no
    other sprite's entry changes, and exactly the record's rectangle is
    appended to [_clear_this_frame]. *)
Theorem static_blit_fresh_stores_inside
    (self : Camera (F := F)) (sprite : nat) (surface : Surface)
    (position : Vec) (layer' flags' : Z) (clipping' : Clipping)
    (bounds : Rect) (st : RootState) :
  _rect self = Some bounds ->
  _rs self = Some TheRoot ->
  positive bounds ->
  positive (dest_rect self surface position) ->
  _static_blits st !! sprite = None ->
  (colliderect bounds (dest_rect self surface position) = false /\
   _static_blit self sprite surface position layer' flags' clipping' st
   = (Return tt, st)) \/
  (colliderect bounds (dest_rect self surface position) = true /\
   exists b,
     _static_blit self sprite surface position layer' flags' clipping' st
     = (Return tt,
        set_clear_this_frame (_clear_this_frame st ++ [rect b])
          (set_static_blits (<[sprite := b]> (_static_blits st)) st)) /\
     static b = true /\ inside (rect b) bounds /\ fits b /\
     layer b = layer' /\ flags b = flags' /\ clipping b = clipping').
Proof.
  intros Hrect Hrs Hpb Hpr Hnone.
  destruct (colliderect bounds (dest_rect self surface position)) eqn:Hcol.
  - right. split; [reflexivity|].
    destruct (contains bounds (dest_rect self surface position)) eqn:Hin.
    + exists (mk_Blit (_scale_fn surface (_scale self))
                (dest_rect self surface position) layer' flags' true
                clipping').
      split.
      * apply (static_blit_fresh_inside self sprite surface position layer'
                 flags' clipping' bounds TheRoot st Hrs Hrect Hnone Hin).
      * simpl. split; [reflexivity|].
        split; [apply (contains_inside _ _ Hin)|].
        split; [apply dest_rect_size|]. auto.
    + destruct (clip_colliding _ bounds Hpr Hpb Hcol) as (Hir & Hib & _).
      set (r := dest_rect self surface position) in *.
      exists (mk_Blit (Subsurface (_scale_fn surface (_scale self))
                         (move (clip r bounds) (- rleft r, - rtop r)))
                (clip r bounds) layer' flags' true clipping').
      split.
      * unfold _static_blit. rewrite Hrect, Hrs. step. rewrite Hnone. step.
        fold (dest_rect self surface position). fold r. rewrite Hin, Hcol.
        change (subsurface _ (move _ _) st)
          with (subsurface (_scale_fn surface (_scale self))
                  (move (clip r bounds) (- rleft r, - rtop r)) st).
        rewrite (subsurface_of_clip (_scale_fn surface (_scale self))
                   r _ st (dest_rect_size self surface position) Hir).
        unfold append_clear_this_frame. step. reflexivity.
      * simpl. split; [reflexivity|]. split; [exact Hib|].
        split; [reflexivity|]. auto.
  - left. split; [reflexivity|].
    apply (static_blit_outside_fresh self sprite surface position layer' flags'
             clipping' bounds TheRoot st Hrs Hrect Hnone Hcol).
Qed.

End Clipping.

(** ** The order of drawing *)

Lemma insert_by_layer_sorted (b : _Blit) (l : list _Blit) :
  StronglySorted (fun a c => layer a <= layer c) l ->
  StronglySorted (fun a c => layer a <= layer c) (insert_by_layer b l).
Proof.
  induction 1 as [|c rest Hs IH Hall]; simpl.
  - repeat constructor.
  - destruct (layer b <=? layer c) eqn:E.
    + apply Z.leb_le in E. constructor; [constructor; assumption|].
      constructor; [exact E|].
      eapply Forall_impl; [exact Hall|]. simpl. intros d Hd. lia.
    + apply Z.leb_gt in E. constructor; [exact IH|].
      eapply Permutation_Forall;
        [symmetry; apply insert_by_layer_perm|].
      constructor; [lia|exact Hall].
Qed.

Lemma insert_by_layer_stable (k : Z) (b : _Blit) (l : list _Blit) :
  List.filter (fun c => layer c =? k) (insert_by_layer b l)
  = List.filter (fun c => layer c =? k) (b :: l).
Proof.
  induction l as [|c rest IH]; [reflexivity|].
  simpl insert_by_layer. destruct (layer b <=? layer c) eqn:E; [reflexivity|].
  apply Z.leb_gt in E. simpl in *.
  destruct (layer c =? k) eqn:Ec.
  - apply Z.eqb_eq in Ec.
    replace (layer b =? k) with false in * by (symmetry; apply Z.eqb_neq; lia).
    rewrite IH. reflexivity.
  - exact IH.
Qed.

(** X9.  The records of a pass are handled in ascending order of layer;
    the order is a rearrangement of the pending blits followed by the
    static ones, and records of the same layer keep the order they had
    there, pending blits before static ones. *)
Theorem draw_order_sorted_stable (st : RootState) :
  StronglySorted (fun a c => layer a <= layer c) (draw_order st) /\
  Permutation (draw_order st)
    (_blits st ++ (map_to_list (_static_blits st)).*2) /\
  forall k : Z,
    List.filter (fun c => layer c =? k) (draw_order st)
    = List.filter (fun c => layer c =? k) (_blits st)
      ++ List.filter (fun c => layer c =? k) (map_to_list (_static_blits st)).*2.
Proof.
  unfold draw_order.
  generalize (_blits st ++ (map_to_list (_static_blits st)).*2) at 1 2 3.
  intros l. split; [|split].
  - induction l as [|b l IH]; simpl; [constructor|].
    apply insert_by_layer_sorted, IH.
  - apply sort_by_layer_perm.
  - intros k. rewrite <- List.filter_app.
    generalize (_blits st ++ (map_to_list (_static_blits st)).*2).
    clear l. intros l. induction l as [|b l IH]; [reflexivity|].
    simpl sort_by_layer. rewrite insert_by_layer_stable. simpl.
    rewrite IH. reflexivity.
Qed.

(** ** A pass over arbitrary records *)

Lemma existsb_perm {A} (f : A -> bool) (l l' : list A) :
  Permutation l l' -> existsb f l = existsb f l'.
Proof.
  induction 1 as [|x l l' _ IH|x y l|l l' l'' _ IH1 _ IH2]; simpl.
  - reflexivity.
  - rewrite IH. reflexivity.
  - destruct (f x), (f y); reflexivity.
  - congruence.
Qed.

Lemma clip_axis_self (a alen : Z) :
  0 < alen -> clip_axis a alen a alen = Some (a, alen).
Proof.
  intros Hpos. unfold clip_axis.
  replace ((a <=? a) && (a <? a + alen)) with true
    by (symmetry; apply andb_true_iff; split;
        [apply Z.leb_le|apply Z.ltb_lt]; lia).
  replace ((a <? a + alen) && (a + alen <=? a + alen)) with true
    by (symmetry; apply andb_true_iff; split;
        [apply Z.ltb_lt|apply Z.leb_le]; lia).
  f_equal. f_equal. lia.
Qed.

(** A rectangle with an area, clipped to itself, is itself. *)
Lemma clip_self (A : Rect) : positive A -> clip A A = A.
Proof.
  intros [Hw Hh]. unfold clip.
  rewrite (clip_axis_self _ _ Hw), (clip_axis_self _ _ Hh).
  destruct A; reflexivity.
Qed.

Lemma move_by_zero (A : Rect) : move A (0, 0) = A.
Proof.
  destruct A as [x y w h]. unfold move. simpl. f_equal; lia.
Qed.

(** A rectangle with an area collides with itself. *)
Lemma colliderect_self (A : Rect) : positive A -> colliderect A A = true.
Proof.
  intros [Hw Hh]. unfold colliderect, axis_overlap.
  apply andb_true_iff; split; apply orb_true_iff; left;
    apply andb_true_iff; split; (apply Z.leb_le || apply Z.ltb_lt); lia.
Qed.

Section Passes.

Context {F : Type} `{Scalar F}.
Variable vernum : Z * Z * Z.

(** What the loop body does with one record, whatever the record: it
    raises exactly for a partly visible one, and then nothing has been
    changed; otherwise it returns, and [clear_next] grows exactly for a
    fully visible one. *)
Lemma draw_blit_outcome (loc : list Rect * nat) (b : _Blit) (st : RootState) :
  if partly_visible (_surface st) b
  then draw_blit vernum (mkRect 0 0 (_surface st).1 (_surface st).2) loc b st
       = (Raise (AttributeError "surf"), st)
  else exists loc' st',
      draw_blit vernum (mkRect 0 0 (_surface st).1 (_surface st).2) loc b st
      = (Return loc', st') /\
      loop_keeps st st' /\
      _clear_next_frame st'
      = _clear_next_frame st
        ++ (if fully_visible (_surface st) b
            then [shown_rect (_surface st) b] else []).
Proof.
  unfold partly_visible, fully_visible.
  destruct (static b) eqn:Hst; simpl.
  - destruct (draw_blit_drawable vernum loc b st (or_introl Hst))
      as (loc' & st' & E & K & N).
    exists loc', st'. rewrite Hst in N. auto.
  - destruct (contains _ (on_screen_rect b)) eqn:Hin; simpl.
    + rewrite (draw_blit_dynamic_inside vernum loc b st Hst Hin).
      eexists _, _. split; [reflexivity|]. split; [|reflexivity].
      unfold loop_keeps; simpl. repeat split. eexists; reflexivity.
    + destruct (colliderect _ (on_screen_rect b)) eqn:Hcol.
      * apply (draw_blit_dynamic_partial vernum _ loc b st Hst Hin Hcol).
      * exists loc, st. split.
        { rewrite draw_blit_unfold. simpl. rewrite Hin, Hcol. reflexivity. }
        split; [apply loop_keeps_refl|]. symmetry; apply app_nil_r.
Qed.

(** The loop over any list of records. *)
Lemma draw_loop_outcome (l : list _Blit) :
  forall (loc : list Rect * nat) (st : RootState),
    if existsb (partly_visible (_surface st)) l
    then exists st',
        for_each (draw_blit vernum (mkRect 0 0 (_surface st).1 (_surface st).2))
          l loc st = (Raise (AttributeError "surf"), st') /\
        loop_keeps st st'
    else exists loc' st',
        for_each (draw_blit vernum (mkRect 0 0 (_surface st).1 (_surface st).2))
          l loc st = (Return loc', st') /\
        loop_keeps st st' /\
        _clear_next_frame st'
        = _clear_next_frame st
          ++ map (shown_rect (_surface st))
               (List.filter (fully_visible (_surface st)) l).
Proof.
  induction l as [|b l IH]; intros loc st.
  - simpl. exists loc, st. split; [reflexivity|].
    split; [apply loop_keeps_refl|]. symmetry; apply app_nil_r.
  - simpl existsb. pose proof (draw_blit_outcome loc b st) as Hb.
    destruct (partly_visible (_surface st) b) eqn:Hpv; simpl orb.
    + exists st. split; [|apply loop_keeps_refl].
      simpl. unfold bind. rewrite Hb. reflexivity.
    + destruct Hb as (loc1 & st1 & E1 & K1 & N1).
      assert (Hsz : _surface st1 = _surface st) by apply K1.
      specialize (IH loc1 st1). rewrite Hsz in IH.
      destruct (existsb (partly_visible (_surface st)) l).
      * destruct IH as (st2 & E2 & K2). exists st2. split.
        { simpl. unfold bind. rewrite E1. exact E2. }
        eapply loop_keeps_trans; eassumption.
      * destruct IH as (loc2 & st2 & E2 & K2 & N2). exists loc2, st2.
        split; [|split].
        { simpl. unfold bind. rewrite E1. exact E2. }
        { eapply loop_keeps_trans; eassumption. }
        rewrite N2, N1. simpl.
        destruct (fully_visible (_surface st) b); simpl;
          rewrite <- app_assoc; reflexivity.
Qed.

Lemma restore_rect_cases (i : Rect) (st : RootState) :
  restore_rect tt i st
  = (Raise (ValueError "subsurface rectangle outside surface area"), st) \/
  restore_rect tt i st
  = (Return tt, set_screen (screen st ++ [restore_op (_background st) i]) st).
Proof.
  unfold restore_rect, bind, gets, subsurface, raise, ret.
  destruct (_ || _); [left|right]; reflexivity.
Qed.

(** Putting the background back changes the screen only, whether or
    not pygame accepts every region. *)
Lemma restore_loop_keeps (l : list Rect) :
  forall st : RootState,
    loop_keeps st (for_each restore_rect l tt st).2 /\
    _clear_this_frame (for_each restore_rect l tt st).2 = _clear_this_frame st /\
    _clear_next_frame (for_each restore_rect l tt st).2 = _clear_next_frame st /\
    _soft_clear (for_each restore_rect l tt st).2 = _soft_clear st.
Proof.
  induction l as [|i l IH]; intros st.
  - simpl. split; [apply loop_keeps_refl|]. auto.
  - change (for_each restore_rect (i :: l) tt st)
      with (bind (restore_rect tt i) (for_each restore_rect l) st).
    unfold bind. destruct (restore_rect_cases i st) as [E|E]; rewrite E.
    + simpl. split; [apply loop_keeps_refl|]. auto.
    + destruct (IH (set_screen
                      (screen st ++ [restore_op (_background st) i]) st))
        as (K & T & N & S).
      split; [|auto].
      eapply loop_keeps_trans; [|exact K].
      unfold loop_keeps; simpl. repeat split. eexists; reflexivity.
Qed.

(** A pass on the root, up to the end of its loop: the store the loop
    starts from. *)
Lemma draw_unfold (root : Camera (F := F)) (st : RootState) :
  _root root = true ->
  _draw vernum root st
  = (let '(o, stA) := for_each restore_rect
                        (_clear_this_frame st ++ _soft_clear st) tt st in
     match o with
     | Raise e => (Raise e, stA)
     | Return _ =>
         let stB := set_soft_clear [] stA in
         let '(o', stC) :=
           for_each (draw_blit vernum
                       (mkRect 0 0 (_surface stB).1 (_surface stB).2))
             (draw_order stA) (_soft_clear st, 0%nat) stB in
         match o' with
         | Raise e => (Raise e, stC)
         | Return loc =>
             (Return tt,
              set_blits []
                (set_clear_next_frame []
                   (set_clear_this_frame (_clear_next_frame stC)
                      (set_screen
                         (screen stC
                          ++ [SetCaption loc.2 (size (_static_blits stA))
                                (length (_blits stA));
                              DisplayUpdate
                                (_clear_next_frame stC
                                 ++ _clear_this_frame stC)])
                         stC))))
         end
     end).
Proof.
  intros Hroot. unfold _draw. rewrite Hroot. cbn [negb].
  unfold bind, gets, modify, screen_op. cbv beta.
  destruct (for_each restore_rect _ tt st) as [[[]|e] stA]; [|reflexivity].
  cbv beta iota. unfold draw_order.
  destruct (for_each (draw_blit vernum _) _ _ _) as [[loc|e] stC];
    [|reflexivity].
  cbv beta iota. unfold set_screen, set_clear_this_frame,
    set_clear_next_frame, set_blits; simpl.
  rewrite <- app_assoc. reflexivity.
Qed.

(** X10.  Whatever the camera and the store, and whether the pass
    returns or raises, [_draw] never changes the static-blit dictionary,
    the background, what is saved for other scenes or the display size,
    and it only ever adds operations to the screen. *)
Theorem draw_keeps (self : Camera (F := F)) (st : RootState) :
  _static_blits (_draw vernum self st).2 = _static_blits st /\
  _background (_draw vernum self st).2 = _background st /\
  _saved_blits (_draw vernum self st).2 = _saved_blits st /\
  _backgrounds (_draw vernum self st).2 = _backgrounds st /\
  _surface (_draw vernum self st).2 = _surface st /\
  exists ops, screen (_draw vernum self st).2 = screen st ++ ops.
Proof.
  destruct (_root self) eqn:Hroot.
  2:{ unfold _draw. rewrite Hroot. simpl. repeat split.
      exists []. symmetry; apply app_nil_r. }
  rewrite (draw_unfold self st Hroot).
  pose proof (restore_loop_keeps (_clear_this_frame st ++ _soft_clear st) st)
    as (KA & _).
  destruct (for_each restore_rect _ tt st) as [[[]|e] stA]; simpl in KA.
  2:{ simpl. destruct KA as (K1 & K2 & K3 & K4 & K5 & K6 & K7).
      repeat split; assumption. }
  pose proof (draw_loop_outcome (draw_order stA) (_soft_clear st, 0%nat)
                (set_soft_clear [] stA)) as Hloop.
  assert (KB : loop_keeps stA (set_soft_clear [] stA)).
  { unfold loop_keeps; simpl. repeat split. exists [].
    symmetry; apply app_nil_r. }
  cbv zeta.
  destruct (existsb _ (draw_order stA)).
  - destruct Hloop as (stC & EC & KC). rewrite EC. simpl.
    destruct (loop_keeps_trans _ _ _ KA (loop_keeps_trans _ _ _ KB KC))
      as (K1 & K2 & K3 & K4 & K5 & K6 & K7).
    repeat split; assumption.
  - destruct Hloop as (loc & stC & EC & KC & _). rewrite EC. simpl.
    destruct (loop_keeps_trans _ _ _ KA (loop_keeps_trans _ _ _ KB KC))
      as (K1 & K2 & K3 & K4 & K5 & K6 & ops & K7).
    repeat split; try assumption.
    eexists. rewrite K7, <- app_assoc. reflexivity.
Qed.

(** X11.  On the root, with a well-formed background and no partly
    visible dynamic record among the pending and static blits, the pass
    returns.  The rectangles the display reported for the fully visible
    dynamic records, in drawing order, are appended to what was in
    [_clear_next_frame], and the result becomes [_clear_this_frame];
    [_clear_next_frame] and the pending blits end up empty; and the
    screen first gets the background put back over every rectangle of
    [_clear_this_frame] and [_soft_clear]. *)
Theorem draw_returns (root : Camera (F := F)) (st : RootState) :
  _root root = true ->
  surface_ok (_background st) ->
  existsb (partly_visible (_surface st))
    (_blits st ++ (map_to_list (_static_blits st)).*2) = false ->
  exists st' ops,
    _draw vernum root st = (Return tt, st') /\
    _clear_this_frame st'
    = _clear_next_frame st
      ++ map (shown_rect (_surface st))
           (List.filter (fully_visible (_surface st)) (draw_order st)) /\
    _clear_next_frame st' = [] /\
    _blits st' = [] /\
    screen st'
    = screen st
      ++ map (restore_op (_background st))
           (_clear_this_frame st ++ _soft_clear st)
      ++ ops.
Proof.
  intros Hroot Hbg Hnone.
  rewrite (draw_unfold root st Hroot).
  rewrite (restore_loop _ st Hbg). cbv beta iota zeta.
  set (stA := set_screen _ st).
  pose proof (draw_loop_outcome (draw_order stA) (_soft_clear st, 0%nat)
                (set_soft_clear [] stA)) as Hloop.
  assert (Hex : existsb (partly_visible (_surface (set_soft_clear [] stA)))
                  (draw_order stA) = false).
  { rewrite <- Hnone. apply existsb_perm. apply sort_by_layer_perm. }
  rewrite Hex in Hloop. destruct Hloop as (loc & stC & EC & KC & NC).
  destruct KC as (K1 & K2 & K3 & K4 & K5 & K6 & ops & K7).
  rewrite EC. eexists _, _. split; [reflexivity|].
  simpl. rewrite NC, K7. simpl.
  repeat split; try reflexivity.
  rewrite <- !app_assoc. reflexivity.
Qed.

Lemma draw_raises (root : Camera (F := F)) (st : RootState) :
  _root root = true ->
  surface_ok (_background st) ->
  existsb (partly_visible (_surface st))
    (_blits st ++ (map_to_list (_static_blits st)).*2) = true ->
  exists st',
    _draw vernum root st = (Raise (AttributeError "surf"), st') /\
    _blits st' = _blits st /\
    _static_blits st' = _static_blits st /\
    _background st' = _background st /\
    _surface st' = _surface st.
Proof.
  intros Hroot Hbg Hsome.
  rewrite (draw_unfold root st Hroot).
  rewrite (restore_loop _ st Hbg). cbv beta iota zeta.
  set (stA := set_screen _ st).
  pose proof (draw_loop_outcome (draw_order stA) (_soft_clear st, 0%nat)
                (set_soft_clear [] stA)) as Hloop.
  assert (Hex : existsb (partly_visible (_surface (set_soft_clear [] stA)))
                  (draw_order stA) = true).
  { rewrite <- Hsome. apply existsb_perm. apply sort_by_layer_perm. }
  rewrite Hex in Hloop. destruct Hloop as (stC & EC & KC).
  rewrite EC. exists stC. split; [reflexivity|].
  destruct KC as (K1 & K2 & K3 & K4 & K5 & K6 & K7).
  simpl in *. auto.
Qed.

(** X12.  On the root, with a well-formed background, a partly visible
    dynamic record among the pending and static blits makes the pass
    raise [AttributeError] at [blit.surf].  The pending blits are not
    cleared, so the next pass raises in the same way. *)
Theorem draw_raises_again (root : Camera (F := F)) (st : RootState) :
  _root root = true ->
  surface_ok (_background st) ->
  existsb (partly_visible (_surface st))
    (_blits st ++ (map_to_list (_static_blits st)).*2) = true ->
  exists st' st'',
    _draw vernum root st = (Raise (AttributeError "surf"), st') /\
    _blits st' = _blits st /\
    _static_blits st' = _static_blits st /\
    _draw vernum root st' = (Raise (AttributeError "surf"), st'').
Proof.
  intros Hroot Hbg Hsome.
  destruct (draw_raises root st Hroot Hbg Hsome)
    as (st' & E1 & B1 & S1 & G1 & Z1).
  assert (Hbg' : surface_ok (_background st')) by (rewrite G1; exact Hbg).
  assert (Hsome' : existsb (partly_visible (_surface st'))
                     (_blits st' ++ (map_to_list (_static_blits st')).*2)
                   = true) by (rewrite Z1, B1, S1; exact Hsome).
  destruct (draw_raises root st' Hroot Hbg' Hsome') as (st'' & E2 & _).
  exists st', st''. auto.
Qed.

(** X13.  After [redraw] on the root, the next pass that returns puts
    the background back over the whole virtual area of the camera
    (clipped to the background). *)
Theorem redraw_then_draw (root : Camera (F := F)) (st : RootState) :
  _root root = true ->
  surface_ok (_background st) ->
  existsb (partly_visible (_surface st))
    (_blits st ++ (map_to_list (_static_blits st)).*2) = false ->
  exists st1 st2 ops,
    redraw root st = (Return tt, st1) /\
    _draw vernum root st1 = (Return tt, st2) /\
    screen st2 = screen st ++ ops /\
    In (restore_op (_background st)
          (mkRect 0 0 (_vsize root).1 (_vsize root).2)) ops.
Proof.
  intros Hroot Hbg Hnone.
  set (st1 := set_clear_this_frame
                (_clear_this_frame st
                 ++ [mkRect 0 0 (_vsize root).1 (_vsize root).2]) st).
  assert (E1 : redraw root st = (Return tt, st1)).
  { unfold redraw, root_only, append_clear_this_frame. rewrite Hroot.
    reflexivity. }
  destruct (draw_returns root st1 Hroot Hbg Hnone)
    as (st2 & ops & E2 & _ & _ & _ & S2).
  exists st1, st2. eexists. split; [exact E1|]. split; [exact E2|].
  split; [exact S2|]. simpl.
  apply in_or_app. left. apply in_map.
  apply in_or_app. left. apply in_or_app. right. left. reflexivity.
Qed.

(** X14.  [set_background] through a child camera, for the scene that
    is running, with an image of the child's virtual size: the image
    becomes the background at once, and the next pass that returns
    paints the whole image on the screen and keeps it as background. *)
Theorem set_background_then_draw
    (root self : Camera (F := F)) (image : Surface) (scene : nat)
    (st : RootState) :
  _root root = true ->
  _root self = false ->
  _rs self = Some TheRoot ->
  get_size image = _vsize self ->
  positive (get_rect image) ->
  existsb (partly_visible (_surface st))
    (_blits st ++ (map_to_list (_static_blits st)).*2) = false ->
  exists st1 st2 ops,
    set_background self image scene scene st = (Return tt, st1) /\
    _background st1 = image /\
    _draw vernum root st1 = (Return tt, st2) /\
    _background st2 = image /\
    screen st2 = screen st ++ ops /\
    In (ScreenBlit (Subsurface image (get_rect image)) (get_rect image) None 0)
       ops.
Proof.
  intros Hroot Hchild Hrs Hsize Hpos Hnone.
  set (st1 := set_clear_this_frame (_clear_this_frame st ++ [get_rect image])
                (set_background_field image st)).
  assert (E1 : set_background self image scene scene st = (Return tt, st1)).
  { unfold set_background. apply size_eqb_eq in Hsize.
    rewrite Hsize, Hchild, Hrs, Nat.eqb_refl. reflexivity. }
  assert (Hbg : surface_ok (_background st1)).
  { destruct Hpos as [Hw Hh]. simpl in *. unfold surface_ok. lia. }
  destruct (draw_returns root st1 Hroot Hbg Hnone)
    as (st2 & ops & E2 & _ & _ & _ & S2).
  exists st1, st2. eexists. split; [exact E1|]. split; [reflexivity|].
  split; [exact E2|]. split; [|split; [exact S2|]].
  - pose proof (draw_keeps root st1) as (_ & G & _). rewrite E2 in G.
    exact G.
  - simpl. apply in_or_app. left. apply in_map_iff.
    exists (get_rect image). split.
    + unfold restore_op. rewrite (clip_self _ Hpos). reflexivity.
    + apply in_or_app. left. apply in_or_app. right. left. reflexivity.
Qed.

(** X15.  [set_background] through a child camera for a scene that is
    not the running one leaves the live background and the restoration
    lists alone and files the image under that scene; when the root then
    enters the scene, the image becomes the background, its whole
    rectangle is scheduled for restoration, and the filed entry is
    gone. *)
Theorem set_background_deferred
    (root self : Camera (F := F)) (image : Surface) (executing current : nat)
    (st : RootState) :
  _root root = true ->
  _root self = false ->
  _rs self = Some TheRoot ->
  get_size image = _vsize self ->
  executing <> current ->
  exists st1 st2,
    set_background self image executing current st = (Return tt, st1) /\
    _background st1 = _background st /\
    _clear_this_frame st1 = _clear_this_frame st /\
    _backgrounds st1 !! executing = Some image /\
    _enter_scene root executing st1 = (Return tt, st2) /\
    _background st2 = image /\
    _clear_this_frame st2 = _clear_this_frame st ++ [get_rect image] /\
    _backgrounds st2 !! executing = None.
Proof.
  intros Hroot Hchild Hrs Hsize Hne.
  set (st1 := set_backgrounds (<[executing := image]> (_backgrounds st)) st).
  assert (E1 : set_background self image executing current st
               = (Return tt, st1)).
  { unfold set_background. apply size_eqb_eq in Hsize.
    rewrite Hsize, Hchild, Hrs.
    replace (executing =? current)%nat with false
      by (symmetry; apply Nat.eqb_neq; exact Hne).
    reflexivity. }
  exists st1. eexists. split; [exact E1|]. split; [reflexivity|].
  split; [reflexivity|]. split; [apply lookup_insert_eq|].
  split.
  { unfold _enter_scene, root_only. rewrite Hroot.
    unfold bind, gets, modify, ret. simpl.
    rewrite lookup_insert_eq. unfold append_clear_this_frame, bind, gets, modify.
    simpl. reflexivity. }
  simpl. split; [reflexivity|]. split; [reflexivity|].
  apply lookup_delete_eq.
Qed.

(** A static record on the screen that collides with a rectangle of
    [clear_this] is drawn, and its on-screen rectangle goes to
    [clear_this] and to the new [_soft_clear]. *)
Lemma draw_blit_static_cleared (screen_rect : Rect) (loc : list Rect * nat)
    (b : _Blit) (st : RootState) :
  static b = true ->
  colliderect screen_rect (on_screen_rect b) = true ->
  existsb (colliderect (on_screen_rect b)) (_clear_this_frame st) = true ->
  draw_blit vernum screen_rect loc b st
  = (Return (loc.1, S loc.2),
     set_soft_clear (_soft_clear st ++ [on_screen_rect b])
       (set_clear_this_frame (_clear_this_frame st ++ [on_screen_rect b])
          (set_screen
             (screen st ++ [draw_op (blit_flags_available vernum) b]) st))).
Proof.
  intros Hst Hcol Hthis. rewrite draw_blit_unfold. simpl.
  rewrite Hcol, andb_false_r, Hst. unfold bind at 1, gets. simpl.
  rewrite Hthis. reflexivity.
Qed.

(** One that collides with nothing in [clear_this] but with a rectangle
    taken over in [soft_clear] is drawn as well. *)
Lemma draw_blit_static_soft (screen_rect : Rect) (loc : list Rect * nat)
    (b : _Blit) (st : RootState) :
  static b = true ->
  colliderect screen_rect (on_screen_rect b) = true ->
  existsb (colliderect (on_screen_rect b)) (_clear_this_frame st) = false ->
  existsb (colliderect (on_screen_rect b)) loc.1 = true ->
  draw_blit vernum screen_rect loc b st
  = (Return (loc.1 ++ [rect b], S loc.2),
     set_screen (screen st ++ [draw_op (blit_flags_available vernum) b]) st).
Proof.
  intros Hst Hcol Hthis Hsoft. rewrite draw_blit_unfold. simpl.
  rewrite Hcol, andb_false_r, Hst. unfold bind at 1, gets. simpl.
  rewrite Hthis, Hsoft. reflexivity.
Qed.

(** One that collides with nothing in either list is left alone. *)
Lemma draw_blit_static_idle (screen_rect : Rect) (loc : list Rect * nat)
    (b : _Blit) (st : RootState) :
  static b = true ->
  existsb (colliderect (on_screen_rect b)) (_clear_this_frame st) = false ->
  existsb (colliderect (on_screen_rect b)) loc.1 = false ->
  draw_blit vernum screen_rect loc b st = (Return loc, st).
Proof.
  intros Hst Hthis Hsoft. rewrite draw_blit_unfold. simpl. rewrite Hst.
  destruct (negb _ && negb _); [reflexivity|].
  unfold bind at 1, gets. simpl. rewrite Hthis, Hsoft. reflexivity.
Qed.

Lemma for_each_single {A L} (body : L -> A -> M L) (x : A) (loc : L)
    (st : RootState) :
  for_each body [x] loc st
  = match body loc x st with
    | (Return loc', st') => (Return loc', st')
    | (Raise e, st') => (Raise e, st')
    end.
Proof. reflexivity. Qed.

(** The order of a pass over a store with one static record and no
    pending blits. *)
Lemma draw_order_single (sprite : nat) (b : _Blit) (st : RootState) :
  _blits st = [] ->
  _static_blits st = <[sprite := b]> ∅ ->
  draw_order st = [b].
Proof.
  intros Hb Hs. unfold draw_order. rewrite Hb, Hs, insert_empty.
  rewrite map_to_list_singleton. reflexivity.
Qed.

(** X16.  The life of a static sprite on an otherwise quiet store (no
    other static record, nothing pending, nothing to clear).  A first
    [_static_blit] inside the camera, without clipping offset, of a
    sprite that shows on the screen is followed by three passes.  The
    first pass erases the sprite's rectangle and draws the sprite; the
    second does the same once more; the third draws nothing at all,
    while the record stays in the dictionary. *)
Theorem static_sprite_lifecycle
    (root self : Camera (F := F)) (sprite : nat) (surface : Surface)
    (position : Vec) (layer' flags' : Z) (region : option Rect)
    (bounds : Rect) (st : RootState) :
  _root root = true ->
  _rect self = Some bounds ->
  _rs self = Some TheRoot ->
  _static_blits st = ∅ ->
  _blits st = [] ->
  _clear_this_frame st = [] ->
  _clear_next_frame st = [] ->
  _soft_clear st = [] ->
  surface_ok (_background st) ->
  contains bounds (dest_rect self surface position) = true ->
  positive (dest_rect self surface position) ->
  colliderect (mkRect 0 0 (_surface st).1 (_surface st).2)
    (dest_rect self surface position) = true ->
  let r := dest_rect self surface position in
  let b := mk_Blit (_scale_fn surface (_scale self)) r layer' flags' true
             ((0, 0), region) in
  let erase := restore_op (_background st) r in
  let draw := draw_op (blit_flags_available vernum) b in
  exists st1 st2 st3 st4,
    _static_blit self sprite surface position layer' flags' ((0, 0), region) st
    = (Return tt, st1) /\
    _draw vernum root st1 = (Return tt, st2) /\
    screen st2
    = screen st ++ [erase; draw; SetCaption 1 1 0; DisplayUpdate [r; r]] /\
    _draw vernum root st2 = (Return tt, st3) /\
    screen st3
    = screen st2 ++ [erase; draw; SetCaption 1 1 0; DisplayUpdate []] /\
    _draw vernum root st3 = (Return tt, st4) /\
    screen st4 = screen st3 ++ [SetCaption 0 1 0; DisplayUpdate []] /\
    _static_blits st4 !! sprite = Some b.
Proof.
  intros Hroot Hrect Hrs Hs Hb Hct Hcn Hsc Hbg Hin Hpos Hscr r b erase draw.
  assert (Hosr : on_screen_rect b = r) by apply move_by_zero.
  assert (Hself : colliderect r r = true) by apply colliderect_self, Hpos.
  assert (Hnone : _static_blits st !! sprite = None)
    by (rewrite Hs; apply lookup_empty).
  pose proof (static_blit_fresh_inside self sprite surface position layer'
                flags' ((0, 0), region) bounds TheRoot st Hrs Hrect Hnone Hin)
    as E1.
  fold r in E1. fold b in E1. rewrite Hs, Hct in E1. simpl app in E1.
  set (st1 := set_clear_this_frame [r] (set_static_blits (<[sprite := b]> ∅) st))
    in E1.
  (* first pass *)
  assert (E2 : exists st2,
             _draw vernum root st1 = (Return tt, st2) /\
             screen st2
             = screen st ++ [erase; draw; SetCaption 1 1 0; DisplayUpdate [r; r]] /\
             _static_blits st2 = <[sprite := b]> ∅ /\ _blits st2 = [] /\
             _clear_this_frame st2 = [] /\ _clear_next_frame st2 = [] /\
             _soft_clear st2 = [r] /\ _background st2 = _background st /\
             _surface st2 = _surface st).
  { eexists. split.
    - rewrite (draw_unfold root st1 Hroot).
      rewrite (restore_loop _ st1 Hbg). cbv beta iota zeta.
      rewrite (draw_order_single sprite b (set_screen _ st1) Hb eq_refl).
      rewrite for_each_single.
      rewrite draw_blit_static_cleared;
        [|reflexivity|simpl; rewrite Hosr; exact Hscr
         |simpl; rewrite Hosr, Hself; reflexivity].
      unfold ret. cbv beta iota. reflexivity.
    - simpl. rewrite Hosr, Hsc, Hcn, Hb. simpl.
      rewrite insert_empty, map_size_singleton.
      repeat split; try reflexivity.
      rewrite <- !app_assoc. reflexivity. }
  destruct E2 as (st2 & E2 & T2 & S2 & B2 & CT2 & CN2 & SC2 & G2 & Z2).
  assert (Hbg2 : surface_ok (_background st2)) by (rewrite G2; exact Hbg).
  (* second pass *)
  assert (E3 : exists st3,
             _draw vernum root st2 = (Return tt, st3) /\
             screen st3
             = screen st2 ++ [erase; draw; SetCaption 1 1 0; DisplayUpdate []] /\
             _static_blits st3 = <[sprite := b]> ∅ /\ _blits st3 = [] /\
             _clear_this_frame st3 = [] /\ _clear_next_frame st3 = [] /\
             _soft_clear st3 = [] /\ _background st3 = _background st /\
             _surface st3 = _surface st).
  { eexists. split.
    - rewrite (draw_unfold root st2 Hroot).
      rewrite (restore_loop _ st2 Hbg2). cbv beta iota zeta.
      rewrite (draw_order_single sprite b (set_screen _ st2) B2 S2).
      rewrite for_each_single.
      rewrite draw_blit_static_soft;
        [|reflexivity|simpl; rewrite Hosr, Z2; exact Hscr
         |simpl; rewrite CT2; reflexivity
         |simpl; rewrite SC2, Hosr; simpl; rewrite Hself; reflexivity].
      unfold ret. cbv beta iota. reflexivity.
    - simpl. rewrite CT2, CN2, SC2, S2, B2, G2. simpl.
      rewrite insert_empty, map_size_singleton.
      repeat split; try assumption; try reflexivity.
      rewrite <- !app_assoc. reflexivity. }
  destruct E3 as (st3 & E3 & T3 & S3 & B3 & CT3 & CN3 & SC3 & G3 & Z3).
  assert (Hbg3 : surface_ok (_background st3)) by (rewrite G3; exact Hbg).
  (* third pass *)
  assert (E4 : exists st4,
             _draw vernum root st3 = (Return tt, st4) /\
             screen st4 = screen st3 ++ [SetCaption 0 1 0; DisplayUpdate []] /\
             _static_blits st4 = <[sprite := b]> ∅).
  { eexists. split.
    - rewrite (draw_unfold root st3 Hroot).
      rewrite (restore_loop _ st3 Hbg3). cbv beta iota zeta.
      rewrite (draw_order_single sprite b (set_screen _ st3) B3 S3).
      rewrite for_each_single.
      rewrite draw_blit_static_idle;
        [|reflexivity|simpl; rewrite CT3; reflexivity
         |simpl; rewrite SC3; reflexivity].
      unfold ret. cbv beta iota. reflexivity.
    - simpl. rewrite CT3, CN3, SC3, S3, B3. simpl.
      rewrite insert_empty, map_size_singleton.
      split; [|reflexivity].
      rewrite app_nil_r. reflexivity. }
  destruct E4 as (st4 & E4 & T4 & S4).
  exists st1, st2, st3, st4.
  repeat split; try assumption.
  rewrite S4. apply lookup_insert_eq.
Qed.

End Passes.

(** ** Making cameras *)

Section Making.

Context {F : Type} `{Scalar F}.
Variable display : Size.

Lemma init_fields (virtual_size real_size : option Size) (root : bool)
    (c : Camera (F := F)) (st : option RootState) :
  Camera_init display virtual_size real_size root = Return (c, st) ->
  _root c = root /\ _parent c = None /\
  (if root
   then _rect c = Some (mkRect 0 0 display.1 display.2) /\
        _rs c = Some TheRoot /\ st = Some (root_state display (_rsize c))
   else _rect c = None /\ _rs c = None /\ st = None) /\
  (virtual_size = None -> _vsize c = _rsize c) /\
  (root = false -> real_size = Some (_rsize c)).
Proof.
  unfold Camera_init. intros Hinit.
  destruct (if root then _ else _) as [rsize|e] eqn:Hr;
    [|discriminate]. simpl in Hinit.
  assert (Hreal : root = false -> real_size = Some rsize).
  { intros ->. destruct real_size; [congruence|discriminate]. }
  destruct (match virtual_size with Some _ => _ | None => _ end)
    as [vs|e] eqn:Hv; [|discriminate]. simpl in Hinit.
  assert (Hvs : virtual_size = None -> vs.1 = rsize).
  { intros ->. inversion Hv. reflexivity. }
  destruct root; inversion Hinit; subst; simpl; auto 10.
Qed.

(** X17.  Every camera made the documented way, the root or a child
    at any depth, can reach the compositor and has a rectangle, anchored
    at the origin; and it is marked as root exactly when it has no
    parent. *)
Theorem made_camera_is_linked (c : Camera (F := F)) :
  made display c ->
  _rs c = Some TheRoot /\
  (exists w h, _rect c = Some (mkRect 0 0 w h)) /\
  (_root c = true <-> _parent c = None).
Proof.
  intros Hmade. inversion Hmade as [vs rs c' st Hinit|p vs rs c' Hp Hmk]; subst.
  - destruct (init_fields _ _ _ _ _ Hinit) as (Hroot & Hpar & (Hrect & Hrs & _) & _).
    split; [exact Hrs|]. split; [eauto|]. tauto.
  - unfold make_child in Hmk.
    destruct (Camera_init display vs _ false) as [[y st]|e] eqn:Hy;
      [|discriminate]. simpl in Hmk.
    destruct (init_fields _ _ _ _ _ Hy) as (Hroot & _).
    destruct (_rs p) as [[]|] eqn:Hrs; [|discriminate]. simpl in Hmk.
    inversion Hmk; subst c; clear Hmk. simpl.
    split; [reflexivity|]. split; [eauto|].
    simpl in Hroot. rewrite Hroot. split; discriminate.
Qed.

(** X18.  [make_child] on a camera that can reach the compositor
    raises in one case only, and always in that case: a virtual size
    with a zero component that is not (0, 0) gives [ZeroDivisionError].
    In every other case it returns a child that is not a root, has the
    camera as parent and reaches the same compositor; without a real
    size (or with (0, 0)) the child's real size is the parent's virtual
    size, and without a virtual size (or with (0, 0)) the child's virtual
    size is its real size. *)
Theorem make_child_outcome (p : Camera (F := F))
    (virtual_size real_size : option Size) :
  _rs p = Some TheRoot ->
  ((exists v, virtual_size = Some v /\ v <> (0, 0) /\ (v.1 = 0 \/ v.2 = 0)) ->
   make_child display p virtual_size real_size = Raise ZeroDivisionError) /\
  (~ (exists v, virtual_size = Some v /\ v <> (0, 0) /\ (v.1 = 0 \/ v.2 = 0)) ->
   exists c,
     make_child display p virtual_size real_size = Return c /\
     _root c = false /\ _parent c = Some p /\ _rs c = Some TheRoot /\
     (real_size = None \/ real_size = Some (0, 0) -> _rsize c = _vsize p) /\
     (virtual_size = None \/ virtual_size = Some (0, 0) ->
      _vsize c = _rsize c)).
Proof.
  intros Hrs. unfold make_child.
  set (real := match real_size with
               | Some rs => if size_eqb rs (0, 0) then Camera_get_size p else rs
               | None => Camera_get_size p
               end).
  assert (Hreal : real_size = None \/ real_size = Some (0, 0) ->
                  real = _vsize p).
  { intros [->| ->]; reflexivity. }
  unfold Camera_init, obind, py_truediv. simpl.
  split.
  - intros (v & -> & Hv & Hzero).
    rewrite (size_eqb_neq _ _ Hv).
    destruct (v.1 =? 0) eqn:E1; [reflexivity|].
    destruct (v.2 =? 0) eqn:E2; [reflexivity|].
    apply Z.eqb_neq in E1. apply Z.eqb_neq in E2.
    destruct Hzero; contradiction.
  - intros Hgood.
    destruct virtual_size as [v|].
    2:{ rewrite Hrs. simpl. eexists. split; [reflexivity|]. simpl.
        repeat split; auto. }
    destruct (size_eqb v (0, 0)) eqn:Ev.
    { rewrite Hrs. simpl. eexists. split; [reflexivity|]. simpl.
      repeat split; auto. }
    assert (Hv : v <> (0, 0)).
    { intros ->. discriminate Ev. }
    destruct (v.1 =? 0) eqn:E1.
    { exfalso. apply Hgood. exists v. apply Z.eqb_eq in E1. auto. }
    destruct (v.2 =? 0) eqn:E2.
    { exfalso. apply Hgood. exists v. apply Z.eqb_eq in E2. auto. }
    rewrite Hrs. simpl. eexists. split; [reflexivity|]. simpl.
    repeat split; auto.
    intros [E|E]; [discriminate E|]. inversion E; subst. contradiction.
Qed.

End Making.

(** * The further properties at work *)

Lemma remove_static_blit_absent_witness :
  _remove_static_blit Shots.view 5%nat Shots.with_sprite
  = (Return tt, Shots.with_sprite).
Proof.
  refine (remove_static_blit_absent Shots.view 5%nat Shots.with_sprite _ _).
  - right. reflexivity.
  - vm_compute; reflexivity.
Defined.

Lemma remove_static_blit_present_witness :
  exists st',
    _remove_static_blit Demo.root 1%nat Shots.with_sprite = (Return tt, st') /\
    _static_blits st' !! 1%nat = None /\
    _clear_this_frame st' = [mkRect 0 0 10 10; mkRect 0 0 10 10].
Proof.
  destruct (remove_static_blit_present Demo.root 1%nat Shots.sprite_record
              Shots.with_sprite (or_introl eq_refl))
    as (st' & E & Hgone & _ & Hclear & _).
  - vm_compute; reflexivity.
  - exists st'. split; [exact E|]. split; [exact Hgone|]. exact Hclear.
Defined.

Lemma static_blit_then_remove_witness :
  exists st1 st2,
    _static_blit Demo.root 1%nat Demo.sprite_image (0%Q, 0%Q) 0 0
      Demo.no_clipping Demo.fresh = (Return tt, st1) /\
    _remove_static_blit Demo.root 1%nat st1 = (Return tt, st2) /\
    _static_blits st2 = _static_blits Demo.fresh.
Proof.
  destruct (static_blit_then_remove Demo.root 1%nat Demo.sprite_image
              (0%Q, 0%Q) 0 0 Demo.no_clipping (mkRect 0 0 100 100) Demo.fresh)
    as (st1 & st2 & E1 & E2 & Hsame & _).
  - reflexivity.
  - reflexivity.
  - vm_compute; reflexivity.
  - vm_compute; reflexivity.
  - exists st1, st2. auto.
Defined.

Lemma exit_enter_scene_round_trip_witness :
  exists st1 st2,
    _exit_scene Demo.root 4%nat Shots.with_sprite = (Return tt, st1) /\
    _static_blits st1 = ∅ /\
    _enter_scene Demo.root 4%nat st1 = (Return tt, st2) /\
    _static_blits st2 = _static_blits Shots.with_sprite /\
    _background st2 = _background Shots.with_sprite.
Proof.
  destruct (exit_enter_scene_round_trip Demo.root 4%nat Shots.with_sprite
              eq_refl)
    as (st1 & st2 & E1 & Hempty & _ & _ & E2 & Hs & Hb & _).
  exists st1, st2. auto.
Defined.

Lemma enter_scene_never_saved_witness :
  _enter_scene Demo.root 4%nat Shots.with_sprite
  = (Return tt, Shots.with_sprite).
Proof.
  refine (enter_scene_never_saved Demo.root 4%nat Shots.with_sprite _ _ _).
  - reflexivity.
  - vm_compute; reflexivity.
  - vm_compute; reflexivity.
Defined.

Lemma blit_partial_clipped_witness :
  clip (dest_rect Demo.root Demo.sprite_image (95%Q, 95%Q))
       (mkRect 0 0 100 100) = mkRect 95 95 5 5 /\
  inside (clip (dest_rect Demo.root Demo.sprite_image (95%Q, 95%Q))
               (mkRect 0 0 100 100)) (mkRect 0 0 100 100).
Proof.
  split; [vm_compute; reflexivity|].
  refine (proj1 (proj2 (blit_partial_clipped Demo.root Demo.sprite_image
                          (95%Q, 95%Q) 0 0 Demo.no_clipping
                          (mkRect 0 0 100 100) Demo.fresh _ _ _ _ _ _))).
  - reflexivity.
  - reflexivity.
  - split; simpl; lia.
  - split; vm_compute; reflexivity.
  - vm_compute; reflexivity.
  - vm_compute; reflexivity.
Defined.

Lemma blit_appends_inside_witness :
  _blit Demo.root Demo.sprite_image (95%Q, 95%Q) 2 0 Demo.no_clipping
    Demo.fresh = (Return tt, Demo.fresh) \/
  exists b,
    _blit Demo.root Demo.sprite_image (95%Q, 95%Q) 2 0 Demo.no_clipping
      Demo.fresh = (Return tt, set_blits (_blits Demo.fresh ++ [b]) Demo.fresh) /\
    static b = false /\ inside (rect b) (mkRect 0 0 100 100) /\ fits b /\
    layer b = 2 /\ flags b = 0 /\ clipping b = Demo.no_clipping.
Proof.
  refine (blit_appends_inside Demo.root Demo.sprite_image (95%Q, 95%Q) 2 0
            Demo.no_clipping (mkRect 0 0 100 100) Demo.fresh _ _ _ _).
  - reflexivity.
  - reflexivity.
  - split; simpl; lia.
  - split; vm_compute; reflexivity.
Defined.

Lemma static_blit_fresh_stores_inside_witness :
  exists b,
    _static_blit Demo.root 1%nat Demo.sprite_image (95%Q, 95%Q) 0 0
      Demo.no_clipping Demo.fresh
    = (Return tt,
       set_clear_this_frame (_clear_this_frame Demo.fresh ++ [rect b])
         (set_static_blits (<[1%nat := b]> (_static_blits Demo.fresh))
            Demo.fresh)) /\
    inside (rect b) (mkRect 0 0 100 100).
Proof.
  destruct (static_blit_fresh_stores_inside Demo.root 1%nat Demo.sprite_image
              (95%Q, 95%Q) 0 0 Demo.no_clipping (mkRect 0 0 100 100)
              Demo.fresh)
    as [[Hout _]|[_ (b & E & _ & Hin & _)]].
  - reflexivity.
  - reflexivity.
  - split; simpl; lia.
  - split; vm_compute; reflexivity.
  - vm_compute; reflexivity.
  - vm_compute in Hout. discriminate Hout.
  - exists b. split; [exact E|exact Hin].
Defined.

Lemma draw_returns_witness :
  exists st',
    _draw Demo.vernum Demo.root Shots.two_pending = (Return tt, st') /\
    _clear_this_frame st' = [mkRect 40 40 10 10; mkRect 5 5 10 10] /\
    _clear_next_frame st' = [] /\
    _blits st' = [].
Proof.
  destruct (draw_returns Demo.vernum Demo.root Shots.two_pending)
    as (st' & ops & E & Hthis & Hnext & Hblits & _).
  - reflexivity.
  - split; simpl; lia.
  - vm_compute; reflexivity.
  - exists st'. split; [exact E|]. split; [|split; assumption].
    rewrite Hthis. vm_compute. reflexivity.
Defined.

Lemma draw_raises_again_witness :
  exists st' st'',
    _draw Demo.vernum Demo.root Shots.one_sliding
    = (Raise (AttributeError "surf"), st') /\
    _blits st' = [Shots.sliding] /\
    _draw Demo.vernum Demo.root st' = (Raise (AttributeError "surf"), st'').
Proof.
  destruct (draw_raises_again Demo.vernum Demo.root Shots.one_sliding)
    as (st' & st'' & E1 & Hb & _ & E2).
  - reflexivity.
  - split; simpl; lia.
  - vm_compute; reflexivity.
  - exists st', st''. auto.
Defined.

Lemma redraw_then_draw_witness :
  exists st1 st2 ops,
    redraw Demo.root Shots.two_pending = (Return tt, st1) /\
    _draw Demo.vernum Demo.root st1 = (Return tt, st2) /\
    screen st2 = screen Shots.two_pending ++ ops /\
    In (restore_op (_background Shots.two_pending) (mkRect 0 0 100 100)) ops.
Proof.
  refine (redraw_then_draw Demo.vernum Demo.root Shots.two_pending _ _ _).
  - reflexivity.
  - split; simpl; lia.
  - vm_compute; reflexivity.
Defined.

Lemma set_background_then_draw_witness :
  exists st1 st2 ops,
    set_background Shots.view Shots.backdrop 1%nat 1%nat Shots.two_pending
    = (Return tt, st1) /\
    _background st1 = Shots.backdrop /\
    _draw Demo.vernum Demo.root st1 = (Return tt, st2) /\
    _background st2 = Shots.backdrop /\
    screen st2 = screen Shots.two_pending ++ ops /\
    In (ScreenBlit (Subsurface Shots.backdrop (get_rect Shots.backdrop))
          (get_rect Shots.backdrop) None 0) ops.
Proof.
  refine (set_background_then_draw Demo.vernum Demo.root Shots.view
            Shots.backdrop 1%nat Shots.two_pending _ _ _ _ _ _).
  - reflexivity.
  - reflexivity.
  - reflexivity.
  - reflexivity.
  - split; simpl; lia.
  - vm_compute; reflexivity.
Defined.

Lemma set_background_deferred_witness :
  exists st1 st2,
    set_background Shots.view Shots.backdrop 2%nat 1%nat Demo.fresh
    = (Return tt, st1) /\
    _background st1 = _background Demo.fresh /\
    _enter_scene Demo.root 2%nat st1 = (Return tt, st2) /\
    _background st2 = Shots.backdrop.
Proof.
  destruct (set_background_deferred Demo.root Shots.view Shots.backdrop
              2%nat 1%nat Demo.fresh)
    as (st1 & st2 & E1 & Hlive & _ & _ & E2 & Hnew & _).
  - reflexivity.
  - reflexivity.
  - reflexivity.
  - reflexivity.
  - lia.
  - exists st1, st2. auto.
Defined.

Lemma static_sprite_lifecycle_witness :
  exists st1 st2 st3 st4,
    _static_blit Demo.root 1%nat Demo.sprite_image (0%Q, 0%Q) 0 0
      Demo.no_clipping Demo.fresh = (Return tt, st1) /\
    _draw Demo.vernum Demo.root st1 = (Return tt, st2) /\
    _draw Demo.vernum Demo.root st2 = (Return tt, st3) /\
    _draw Demo.vernum Demo.root st3 = (Return tt, st4) /\
    screen st4 = screen st3 ++ [SetCaption 0 1 0; DisplayUpdate []].
Proof.
  destruct (static_sprite_lifecycle Demo.vernum Demo.root Demo.root 1%nat
              Demo.sprite_image (0%Q, 0%Q) 0 0 None (mkRect 0 0 100 100)
              Demo.fresh)
    as (st1 & st2 & st3 & st4 & E1 & E2 & _ & E3 & _ & E4 & T4 & _).
  - reflexivity.
  - reflexivity.
  - reflexivity.
  - reflexivity.
  - reflexivity.
  - reflexivity.
  - reflexivity.
  - reflexivity.
  - split; simpl; lia.
  - vm_compute; reflexivity.
  - split; vm_compute; reflexivity.
  - vm_compute; reflexivity.
  - exists st1, st2, st3, st4. auto.
Defined.

Lemma made_camera_is_linked_witness :
  _rs Demo.child = Some TheRoot /\
  (exists w h, _rect Demo.child = Some (mkRect 0 0 w h)) /\
  (_root Demo.child = true <-> _parent Demo.child = None).
Proof.
  refine (made_camera_is_linked (200, 200) Demo.child _).
  apply (made_child (200, 200) Demo.wide_root (Some (50, 50))
           (Some (100, 100))); [|vm_compute; reflexivity].
  apply (made_root (200, 200) (Some (100, 100)) None Demo.wide_root
           (Some (root_state (200, 200) (200, 200)))).
  vm_compute; reflexivity.
Defined.

Lemma make_child_outcome_witness :
  make_child Demo.display Demo.root (Some (0, 50)) None
  = Raise ZeroDivisionError /\
  exists c,
    make_child Demo.display Demo.root None None = Return c /\
    _rsize c = (100, 100) /\ _vsize c = (100, 100).
Proof.
  split.
  - apply (proj1 (make_child_outcome Demo.display Demo.root (Some (0, 50))
                    None eq_refl)).
    exists (0, 50). split; [reflexivity|]. split; [|left; reflexivity].
    intros E. discriminate E.
  - destruct (proj2 (make_child_outcome Demo.display Demo.root None None
                       eq_refl))
      as (c & E & _ & _ & _ & Hr & Hv).
    + intros (v & Hsome & _). discriminate Hsome.
    + exists c. split; [exact E|].
      rewrite (Hv (or_introl eq_refl)), (Hr (or_introl eq_refl)).
      split; reflexivity.
Defined.
